(** * Selling-Partner API client core: token cache, credential resolver,
      rate limiter and request executor.

    Shallow embedding of [src/lib/sp-api/auth.ts] (two revisions are kept in
    the repository: the token-only one and the role-based one) and of the
    client module holding [RATE_LIMITS], [checkRateLimit], [buildQueryString]
    and [spApiRequest].

    The code is asynchronous JavaScript that mutates two module-level
    variables ([cachedToken], [requestTimestamps]), reads [process.env] and
    the wall clock, and talks to the network.  It is embedded as functions
    in a state-and-exception monad over a [World]; everything the platform
    decides (network replies, timer lateness, JSON, URL and signing
    libraries) is a field of a [Platform] record. *)

From Stdlib Require Import ZArith QArith Qround Ascii String List Bool Sorted Lia Lqa.
From stdpp Require Import base option gmap strings pretty list fin_maps.

Local Open Scope string_scope.
Local Open Scope Z_scope.

(** ** JavaScript values the code handles *)

(** A thrown value: an [Error] instance carrying its [message], or any other
    thrown value (the executor's [catch] tells them apart with
    [instanceof Error]). *)
Inductive JsExn : Type :=
| JsError (message : string)
| JsNonError.

(** Completion of an awaited computation. *)
Inductive Outcome (A : Type) : Type :=
| Returned (a : A)
| Thrown (e : JsExn).
Arguments Returned {A} a.
Arguments Thrown {A} e.

(** JSON documents ([JSON.parse] results and request bodies). *)
#[local] Set Warnings "-register-all".
Inductive Json : Type :=
| JNull
| JBool (b : bool)
| JNumber (q : Q)
| JString (s : string)
| JArray (items : list Json)
| JObject (fields : list (string * Json)).

(** JavaScript truthiness of a string read from [process.env] or of a
    captured group: [undefined] and the empty string are falsy. *)
Definition truthy (v : option string) : bool :=
  match v with
  | Some s => negb (String.eqb s "")
  | None => false
  end.

(** [a || b] on possibly-undefined strings. *)
Definition js_or (a : option string) (b : option string) : option string :=
  if truthy a then a else b.

(** Truthiness of an optional JSON value ([if (body)]). *)
Definition json_truthy (v : option Json) : bool :=
  match v with
  | None => false
  | Some JNull => false
  | Some (JBool b) => b
  | Some (JNumber q) => negb (Qeq_bool q 0)
  | Some (JString s) => negb (String.eqb s "")
  | Some (JArray _) => true
  | Some (JObject _) => true
  end.

(** ** Data model of the two modules *)

(** [interface TokenResponse] (the fields the code reads). *)
Record TokenResponse : Type := mkTokenResponse {
  access_token : string;
  expires_in : Z
}.

(** [interface CachedToken]. *)
Record CachedToken : Type := mkCachedToken {
  accessToken : string;
  expiresAt : Z
}.

(** Result type of [getSTSCredentials]; a field read through a non-null
    assertion on an unset variable is [undefined], hence the options. *)
Record Credentials : Type := mkCredentials {
  accessKeyId : option string;
  secretAccessKey : option string;
  sessionToken : option string
}.

(** One entry of [RATE_LIMITS]: [requests] is a JavaScript number (the
    shipped table holds the fraction 0.0167), [period] is in milliseconds. *)
Record RateLimit : Type := mkRateLimit {
  requests : Q;
  period : Z
}.

(** The [RATE_LIMITS] object: the [default] entry and the named entries. *)
Record RateTable : Type := mkRateTable {
  default_limit : RateLimit;
  named_limits : gmap string RateLimit
}.

(** A value of the query record: [string | string[] | undefined]. *)
Inductive QueryValue : Type :=
| QUndefined
| QString (s : string)
| QArray (vs : list string).

(** [interface SPAPIRequestOptions] (the request descriptor). *)
Record SPAPIRequestOptions : Type := mkOptions {
  opt_method : option string;
  opt_path : string;
  opt_query : option (list (string * QueryValue));
  opt_body : option Json;
  opt_headers : option (gmap string string)
}.

(** [interface SPAPIResponse] (the response envelope); an absent field is
    [None]. *)
Record SPAPIResponse : Type := mkResponse {
  success : bool;
  data : option Json;
  error : option string;
  statusCode : option Z
}.

(** Result of [validateCredentials]. *)
Record Validation : Type := mkValidation {
  valid : bool;
  missing : list string
}.

(** ** Network and platform *)

Inductive FetchBody : Type :=
| NoBody
| TextBody (s : string)
| FormBody (params : list (string * string)).

(** Arguments of one [fetch] call. *)
Record FetchRequest : Type := mkFetchRequest {
  f_url : string;
  f_method : string;
  f_headers : gmap string string;
  f_body : FetchBody
}.

(** What the code reads of a [Response]: the status and the body text
    ([response.text()] may itself reject). *)
Record HttpResponse : Type := mkHttpResponse {
  status : Z;
  body_text : Outcome string
}.

(** [response.ok]. *)
Definition ok (r : HttpResponse) : bool :=
  (200 <=? status r) && (status r <=? 299).

(** The platform's answer to one [fetch]: how long it took and whether the
    promise resolved with a response or rejected. *)
Record FetchReply : Type := mkFetchReply {
  latency : N;
  completion : Outcome HttpResponse
}.

(** The [aws4.Request] object handed to the signer. *)
Record Aws4Request : Type := mkAws4Request {
  a_host : string;
  a_method : string;
  a_path : string;
  a_headers : gmap string string;
  a_service : string;
  a_region : string;
  a_body : option string
}.

(** Observable actions, in the order they happen.  The last three are the
    calls the code makes to the platform and to the signing library.  The
    first three are ghost markers: they record the entry into the function
    of the same name and correspond to no statement of the source. *)
Inductive Event : Type :=
| EvGetAccessToken
| EvGetSTSCredentials
| EvCheckRateLimit (apiType : string)
| EvSetTimeout (ms : Z)
| EvSign (req : Aws4Request) (creds : Credentials)
| EvFetch (req : FetchRequest).

(** Everything the host platform and the libraries decide.  The [n]-th
    [fetch] and the [n]-th timer are answered by index, so every sequence of
    replies is representable. *)
Record Platform : Type := mkPlatform {
  fetch_reply : nat -> FetchRequest -> FetchReply;
  timer_lag : nat -> N;
  JSON_parse : string -> option Json;
  JSON_stringify : Json -> string;
  response_json : string -> option TokenResponse;
  URL_host : string -> Outcome string;
  URLSearchParams_toString : list (string * string) -> string;
  aws4_sign : Aws4Request -> Credentials -> Outcome Aws4Request;
  regex_capture : string -> string -> option string
}.

(** Module-level state of the process ([cachedToken], [requestTimestamps],
    [process.env]) together with the wall clock in milliseconds and the
    record of what has happened so far.  The clock moves only while the
    code is suspended on the network or on a timer. *)
Record World : Type := mkWorld {
  clock : Z;
  env : gmap string string;
  cachedToken : option CachedToken;
  requestTimestamps : gmap string (list Z);
  trace : list Event
}.

Definition set_clock (t : Z) (w : World) : World :=
  mkWorld t (env w) (cachedToken w) (requestTimestamps w) (trace w).
Definition set_cachedToken (c : option CachedToken) (w : World) : World :=
  mkWorld (clock w) (env w) c (requestTimestamps w) (trace w).
Definition set_requestTimestamps (m : gmap string (list Z)) (w : World) : World :=
  mkWorld (clock w) (env w) (cachedToken w) m (trace w).
Definition add_event (e : Event) (w : World) : World :=
  mkWorld (clock w) (env w) (cachedToken w) (requestTimestamps w) (trace w ++ [e])%list.

Definition is_fetch (e : Event) : bool :=
  match e with EvFetch _ => true | _ => false end.
Definition is_timer (e : Event) : bool :=
  match e with EvSetTimeout _ => true | _ => false end.

(** Number of network calls / of timers recorded in a trace. *)
Definition fetch_count (tr : list Event) : nat := length (List.filter is_fetch tr).
Definition timer_count (tr : list Event) : nat := length (List.filter is_timer tr).

(** ** The monad of asynchronous, stateful, throwing code *)

Definition M (A : Type) : Type := World -> Outcome A * World.

Definition ret {A} (a : A) : M A := fun w => (Returned a, w).
Definition throw {A} (e : JsExn) : M A := fun w => (Thrown e, w).
Definition bind {A B} (m : M A) (k : A -> M B) : M B :=
  fun w => match m w with
           | (Returned a, w') => k a w'
           | (Thrown e, w') => (Thrown e, w')
           end.
(** [try { m } catch (e) { h e }]. *)
Definition try_catch {A} (m : M A) (h : JsExn -> M A) : M A :=
  fun w => match m w with
           | (Returned a, w') => (Returned a, w')
           | (Thrown e, w') => h e w'
           end.
Definition gets {A} (f : World -> A) : M A := fun w => (Returned (f w), w).
Definition modify (f : World -> World) : M unit := fun w => (Returned tt, f w).
Definition lift {A} (o : Outcome A) : M A := fun w => (o, w).

Notation "'let*' x ':=' m 'in' k" := (bind m (fun x => k))
  (at level 10, x pattern, m at level 99, k at level 200).
Notation "m ';;' k" := (bind m (fun _ => k))
  (at level 100, k at level 200, right associativity).

(** [Date.now()]. *)
Definition Date_now : M Z := gets clock.
(** [process.env[key]]. *)
Definition process_env (key : string) : M (option string) :=
  gets (fun w => env w !! key).
Definition emit (e : Event) : M unit := modify (add_event e).

Section Primitives.

Variable P : Platform.

(** [await fetch(...)]: the call is recorded, the platform's reply for this
    call is looked up, the clock advances by its latency, and the promise
    resolves or rejects accordingly. *)
Definition fetch (req : FetchRequest) : M HttpResponse :=
  fun w =>
    let r := fetch_reply P (fetch_count (trace w)) req in
    let w' := set_clock (clock w + Z.of_N (latency r)) (add_event (EvFetch req) w) in
    (completion r, w').

(** [await new Promise((resolve) => setTimeout(resolve, ms))]: control comes
    back no earlier than [ms] milliseconds later (a non-positive delay fires
    at once), and possibly later by the platform's lag. *)
Definition setTimeout_await (ms : Z) : M unit :=
  fun w =>
    let lag := timer_lag P (timer_count (trace w)) in
    let w' := set_clock (clock w + Z.max 0 ms + Z.of_N lag) (add_event (EvSetTimeout ms) w) in
    (Returned tt, w').

(** [await response.text()]. *)
Definition response_text (r : HttpResponse) : M string := lift (body_text r).

(** [await response.json()] read at type [TokenResponse]: rejects when the
    body cannot be read or is not JSON. *)
Definition response_json_token (r : HttpResponse) : M TokenResponse :=
  let* txt := response_text r in
  match response_json P txt with
  | Some d => ret d
  | None => throw (JsError "Unexpected token in JSON")
  end.

End Primitives.

(** [cachedToken && cachedToken.expiresAt > Date.now() + 60000]. *)
Definition cache_valid (c : option CachedToken) (now : Z) : bool :=
  match c with
  | Some tok => expiresAt tok >? now + 60000
  | None => false
  end.

(** [a || d] where [d] is a string literal. *)
Definition js_or_default (a : option string) (d : string) : string :=
  match a with
  | Some s => if String.eqb s "" then d else s
  | None => d
  end.

(** A value of [process.env] interpolated into a form body: [undefined]
    is stringified by [URLSearchParams]. *)
Definition form_value (v : option string) : string := default "undefined" v.

(** The refresh-token exchange request built by [getAccessToken]. *)
Definition token_request (e : gmap string string) : FetchRequest :=
  {| f_url := "https://api.amazon.com/auth/o2/token";
     f_method := "POST";
     f_headers := {[ "Content-Type" := "application/x-www-form-urlencoded" ]};
     f_body := FormBody [ ("grant_type", "refresh_token");
                          ("refresh_token", form_value (e !! "REFRESH_TOKEN"));
                          ("client_id", form_value (e !! "LWA_CLIENT_ID"));
                          ("client_secret", form_value (e !! "LWA_CLIENT_SECRET")) ] |}.

(** [const missing = required.filter((key) => !process.env[key])] and the
    record built from it. *)
Definition validate_against (required : list string) (e : gmap string string) : Validation :=
  let missing := List.filter (fun key => negb (truthy (e !! key))) required in
  {| valid := Nat.eqb (length missing) 0; missing := missing |}.

(** ** auth.ts, token-only revision ([src/lib/sp-api/auth.ts]) *)
Module Auth.
Section WithPlatform.

Variable P : Platform.

(** The part of [getAccessToken] after the cache check. *)
Definition refreshToken : M string :=
  let* e := gets env in
  let* response := fetch P (token_request e) in
  if negb (ok response) then
    let* err := response_text response in
    throw (JsError ("Failed to refresh token: " +:+ err))
  else
    let* d := response_json_token P response in
    let* t := Date_now in
    modify (set_cachedToken
              (Some {| accessToken := access_token d;
                       expiresAt := t + expires_in d * 1000 |})) ;;
    let* c := gets cachedToken in
    ret (from_option accessToken (access_token d) c).

Definition getAccessToken : M string :=
  emit EvGetAccessToken ;;
  let* c := gets cachedToken in
  let* now := Date_now in
  match c with
  | Some tok =>
      if expiresAt tok >? now + 60000 then ret (accessToken tok)
      else refreshToken
  | None => refreshToken
  end.

(** Static key pair when both variables are set, dummy credentials
    otherwise. *)
Definition getSTSCredentials : M Credentials :=
  emit EvGetSTSCredentials ;;
  let* k := process_env "AWS_ACCESS_KEY_ID" in
  let* s := process_env "AWS_SECRET_ACCESS_KEY" in
  if truthy k && truthy s then
    ret {| accessKeyId := k; secretAccessKey := s; sessionToken := None |}
  else
    ret {| accessKeyId := Some ""; secretAccessKey := Some ""; sessionToken := None |}.

Definition hasAWSCredentials (e : gmap string string) : bool :=
  truthy (e !! "AWS_ACCESS_KEY_ID") && truthy (e !! "AWS_SECRET_ACCESS_KEY").

End WithPlatform.

Definition required : list string :=
  [ "LWA_CLIENT_ID"; "LWA_CLIENT_SECRET"; "REFRESH_TOKEN"; "SELLER_ID"; "MARKETPLACE_ID" ].

Definition validateCredentials (e : gmap string string) : Validation :=
  validate_against required e.

End Auth.

(** ** auth.ts, role-based revision (the second copy of the module) *)
Module AuthRole.
Section WithPlatform.

Variable P : Platform.

Definition refreshToken : M string :=
  let* e := gets env in
  let* response := fetch P (token_request e) in
  if negb (ok response) then
    let* err := response_text response in
    throw (JsError ("Failed to refresh token: " +:+ err))
  else
    let* d := response_json_token P response in
    let* t := Date_now in
    modify (set_cachedToken
              (Some {| accessToken := access_token d;
                       expiresAt := t + expires_in d * 1000 |})) ;;
    ret (access_token d).

Definition getAccessToken : M string :=
  emit EvGetAccessToken ;;
  let* c := gets cachedToken in
  let* now := Date_now in
  match c with
  | Some tok =>
      if expiresAt tok >? now + 60000 then ret (accessToken tok)
      else refreshToken
  | None => refreshToken
  end.

Definition placeholder_role : string := "arn:aws:iam::YOUR_ACCOUNT:role/YOUR_ROLE".

(** The [AssumeRole] exchange request. *)
Definition sts_request (role : option string) : FetchRequest :=
  {| f_url := "https://sts.amazonaws.com/";
     f_method := "POST";
     f_headers := {[ "Content-Type" := "application/x-www-form-urlencoded" ]};
     f_body := FormBody [ ("Action", "AssumeRole");
                          ("Version", "2011-06-15");
                          ("RoleArn", form_value role);
                          ("RoleSessionName", "sp-api-session");
                          ("DurationSeconds", "3600") ] |}.

(** The static pair read with non-null assertions. *)
Definition iam_user (k s : option string) : Credentials :=
  {| accessKeyId := k; secretAccessKey := s; sessionToken := None |}.

Definition getSTSCredentials : M Credentials :=
  emit EvGetSTSCredentials ;;
  let* role := process_env "AWS_ROLE_ARN" in
  let* k := process_env "AWS_ACCESS_KEY_ID" in
  let* s := process_env "AWS_SECRET_ACCESS_KEY" in
  if negb (truthy role) || bool_decide (role = Some placeholder_role) then
    ret (iam_user k s)
  else
    let* accessToken := getAccessToken in
    let* stsResponse := fetch P (sts_request role) in
    if negb (ok stsResponse) then
      ret (iam_user k s)
    else
      let* xml := response_text stsResponse in
      let accessKeyMatch := regex_capture P "<AccessKeyId>(.+?)<\/AccessKeyId>" xml in
      let secretKeyMatch := regex_capture P "<SecretAccessKey>(.+?)<\/SecretAccessKey>" xml in
      let sessionTokenMatch := regex_capture P "<SessionToken>(.+?)<\/SessionToken>" xml in
      ret {| accessKeyId := js_or accessKeyMatch k;
             secretAccessKey := js_or secretKeyMatch s;
             sessionToken := sessionTokenMatch |}.

End WithPlatform.

Definition required : list string :=
  [ "LWA_CLIENT_ID"; "LWA_CLIENT_SECRET"; "REFRESH_TOKEN";
    "AWS_ACCESS_KEY_ID"; "AWS_SECRET_ACCESS_KEY"; "SELLER_ID"; "MARKETPLACE_ID" ].

Definition validateCredentials (e : gmap string string) : Validation :=
  validate_against required e.

End AuthRole.

(** ** The client module *)
Module Client.

(** [path.split('/')]. *)
Fixpoint split_slash (s : string) : list string :=
  match s with
  | EmptyString => [""]
  | String c rest =>
      if Ascii.eqb c "/"%char then "" :: split_slash rest
      else match split_slash rest with
           | seg :: segs => String c seg :: segs
           | [] => [String c ""]
           end
  end.

(** [path.split('/')[1] || 'default']. *)
Definition apiType_of (path : string) : string :=
  js_or_default (split_slash path !! 1%nat) "default".

(** The shipped [RATE_LIMITS] table; 0.0167 is written as the fraction
    167/10000 (only its comparison with integer lengths is ever used). *)
Definition RATE_LIMITS : RateTable :=
  {| default_limit := {| requests := 10; period := 1000 |};
     named_limits :=
       <[ "inventory" := {| requests := 2; period := 1000 |} ]>
       (<[ "orders" := {| requests := 5; period := 1000 |} ]>
       (<[ "reports" := {| requests := 167 # 10000; period := 1000 |} ]> ∅)) |}.

(** [RATE_LIMITS[apiType] || RATE_LIMITS.default]. *)
Definition limit_for (T : RateTable) (apiType : string) : RateLimit :=
  default (default_limit T) (named_limits T !! apiType).

(** [log.filter((ts) => now - ts < limit.period)]. *)
Definition prune (limit : RateLimit) (now : Z) (log : list Z) : list Z :=
  List.filter (fun ts => now - ts <? period limit) log.

(** [log.length >= limit.requests]. *)
Definition at_limit (limit : RateLimit) (log : list Z) : bool :=
  Qle_bool (requests limit) (inject_Z (Z.of_nat (length log))).

(** [limit.period - (now - log[0])]; with an empty log the read is
    [undefined] and the result [NaN], rendered as [None]. *)
Definition waitTime (limit : RateLimit) (now : Z) (log : list Z) : option Z :=
  match log with
  | t0 :: _ => Some (period limit - (now - t0))
  | [] => None
  end.

(** [buildQueryString]'s entry list. *)
Definition query_entries (params : list (string * QueryValue)) : list (string * string) :=
  flat_map (fun kv => match snd kv with
                      | QUndefined => []
                      | QString v => [(fst kv, v)]
                      | QArray vs => List.map (fun v => (fst kv, v)) vs
                      end) params.

Section WithPlatform.

Variable P : Platform.
(** The two functions imported from the auth module. *)
Variable getAccessToken : M string.
Variable getSTSCredentials : M Credentials.
(** The rate table in force (the shipped one is [RATE_LIMITS]). *)
Variable T : RateTable.

(** The log is created on first use, pruned and stored back; when it is at
    the limit the call awaits a timer (a [NaN] delay fires at once, like a
    delay of 0); the [now] read at entry is then pushed onto the log as it
    is at that moment. *)
Definition checkRateLimit (apiType : string) : M unit :=
  emit (EvCheckRateLimit apiType) ;;
  let limit := limit_for T apiType in
  let* now := Date_now in
  let* ts0 := gets requestTimestamps in
  let log := prune limit now (default [] (ts0 !! apiType)) in
  modify (set_requestTimestamps (<[ apiType := log ]> ts0)) ;;
  (if at_limit limit log
   then setTimeout_await P (default 0 (waitTime limit now log))
   else ret tt) ;;
  let* ts1 := gets requestTimestamps in
  modify (set_requestTimestamps
            (<[ apiType := (default [] (ts1 !! apiType) ++ [now])%list ]> ts1)).

Definition buildQueryString (params : list (string * QueryValue)) : string :=
  let entries := query_entries params in
  match entries with
  | [] => ""
  | _ => "?" +:+ URLSearchParams_toString P entries
  end.

(** Everything [spApiRequest] does before the network call: the outcome is
    the argument list of the final [fetch]. *)
Definition build_request (options : SPAPIRequestOptions) : M FetchRequest :=
  let method := default "GET" (opt_method options) in
  let path := opt_path options in
  let query := opt_query options in
  let body := opt_body options in
  let headers := default ∅ (opt_headers options) in
  let* accessToken := getAccessToken in
  let* credentials := getSTSCredentials in
  let* ep := process_env "SP_API_ENDPOINT" in
  let endpoint := js_or_default ep "https://sellingpartnerapi-na.amazon.com" in
  let queryString := from_option buildQueryString "" query in
  let fullPath := path +:+ queryString in
  let apiType := apiType_of path in
  checkRateLimit apiType ;;
  let* host := lift (URL_host P endpoint) in
  let requestOptions :=
    {| a_host := host;
       a_method := method;
       a_path := fullPath;
       a_headers := headers ∪ <[ "x-amz-access-token" := accessToken ]>
                                {[ "Content-Type" := "application/json" ]};
       a_service := "execute-api";
       a_region := "us-east-1";
       a_body := if json_truthy body
                 then JSON_stringify P <$> body else None |} in
  emit (EvSign requestOptions credentials) ;;
  let* signedRequest := lift (aws4_sign P requestOptions credentials) in
  ret {| f_url := endpoint +:+ fullPath;
         f_method := method;
         f_headers := a_headers signedRequest;
         f_body := if json_truthy body
                   then from_option (fun b => TextBody (JSON_stringify P b)) NoBody body
                   else NoBody |}.

(** The envelope built from a response whose text has been read. *)
Definition envelope_of (response : HttpResponse) (responseText : string) : SPAPIResponse :=
  let responseData := JSON_parse P responseText in
  if negb (ok response) then
    {| success := false;
       data := None;
       error := Some (js_or_default (Some responseText)
                                    ("HTTP " +:+ pretty (status response)));
       statusCode := Some (status response) |}
  else
    {| success := true;
       data := responseData;
       error := None;
       statusCode := Some (status response) |}.

(** The envelope built by the [catch] clause. *)
Definition failure_of (e : JsExn) : SPAPIResponse :=
  {| success := false;
     data := None;
     error := Some (match e with
                    | JsError message => message
                    | JsNonError => "Unknown error"
                    end);
     statusCode := None |}.

Definition spApiRequest (options : SPAPIRequestOptions) : M SPAPIResponse :=
  try_catch
    (let* request := build_request options in
     let* response := fetch P request in
     let* responseText := response_text response in
     ret (envelope_of response responseText))
    (fun e => ret (failure_of e)).

End WithPlatform.
End Client.

(** ** utils.ts: display helpers *)
Module Utils.

(** [s.split(sep)] for a one-character separator. *)
Fixpoint split_on (sep : ascii) (s : string) : list string :=
  match s with
  | EmptyString => [""]
  | String c rest =>
      if Ascii.eqb c sep then "" :: split_on sep rest
      else match split_on sep rest with
           | seg :: segs => String c seg :: segs
           | [] => [String c ""]
           end
  end.

(** [items.join(sep)]. *)
Fixpoint join (sep : string) (items : list string) : string :=
  match items with
  | [] => ""
  | [x] => x
  | x :: rest => x +:+ sep +:+ join sep rest
  end.

(** [text.slice(0, end)] for an integral [end]: a negative end counts from
    the end of the text, and the result is clamped to the text. *)
Definition slice_to (text : string) (stop : Z) : string :=
  let len := Z.of_nat (String.length text) in
  let to := if stop <? 0 then Z.max (len + stop) 0 else Z.min stop len in
  substring 0 (Z.to_nat to) text.

Definition truncate (text : string) (maxLength : Z) : string :=
  if Z.of_nat (String.length text) <=? maxLength then text
  else slice_to text (maxLength - 3) +:+ "...".

Inductive StockLevel : Type := healthy | low | critical | out.

Record InventoryStatus : Type := mkInventoryStatus {
  status : StockLevel;
  label : string;
  color : string
}.

(** [reorderLevel] defaults to 10 when the argument is not passed. *)
Definition getInventoryStatus (quantity : Q) (reorderLevel : option Q) : InventoryStatus :=
  let reorderLevel := default 10%Q reorderLevel in
  if Qeq_bool quantity 0 then
    {| status := out; label := "Out of Stock"; color := "bg-red-100 text-red-800" |}
  else if Qle_bool quantity (reorderLevel / 2) then
    {| status := critical; label := "Critical"; color := "bg-red-100 text-red-800" |}
  else if Qle_bool quantity reorderLevel then
    {| status := low; label := "Low Stock"; color := "bg-yellow-100 text-yellow-800" |}
  else
    {| status := healthy; label := "In Stock"; color := "bg-green-100 text-green-800" |}.

(** [`${n} ${unit}${n > 1 ? 's' : ''} ago`]. *)
Definition ago (n : Z) (unit : string) : string :=
  pretty n +:+ " " +:+ unit +:+ (if n >? 1 then "s" else "") +:+ " ago".

(** [now] is the time value of [new Date()], [d] that of the argument
    ([None] for an invalid date, whose time value is [NaN]); all quantities
    are whole numbers of milliseconds. *)
Definition formatRelativeTime (now : Z) (d : option Z) : string :=
  match d with
  | None => "Just now"
  | Some t =>
      let diffMs := now - t in
      let diffSecs := diffMs / 1000 in
      let diffMins := diffSecs / 60 in
      let diffHours := diffMins / 60 in
      let diffDays := diffHours / 24 in
      if diffDays >? 0 then ago diffDays "day"
      else if diffHours >? 0 then ago diffHours "hour"
      else if diffMins >? 0 then ago diffMins "minute"
      else "Just now"
  end.

Record OrderIdParts : Type := mkOrderIdParts {
  marketplace : string;
  orderNumber : string
}.

Definition parseAmazonOrderId (orderId : string) : OrderIdParts :=
  let parts := split_on "-"%char orderId in
  {| marketplace := js_or_default (parts !! 0%nat) "Unknown";
     orderNumber := orderId |}.

End Utils.

(** ** The client module: class [SPAPIClient] *)
Module Facade.

(** The two private fields. *)
Record SPAPIClient : Type := mkClient {
  sellerId : string;
  marketplaceId : string
}.

(** The constructor. *)
Definition new_SPAPIClient (e : gmap string string) : SPAPIClient :=
  {| sellerId := js_or_default (e !! "SELLER_ID") "";
     marketplaceId := js_or_default (e !! "MARKETPLACE_ID") "ATVPDKIKX0DER" |}.

(** A call of one of the methods with its arguments.  An optional field of
    a parameter object, or an argument that may be [undefined], is an
    option; numbers that are page sizes are whole. *)
Inductive Operation : Type :=
| getMarketplaceParticipations
| getOrders (createdAfter createdBefore : option string)
    (orderStatuses : option (list string)) (maxResultsPerPage : option Z)
    (nextToken : option string)
| getOrder (orderId : string)
| getOrderItems (orderId : string)
| getInventorySummaries (granularityType granularityId : option string)
    (sellerSkus : option (list string)) (nextToken : option string)
| searchCatalogItems (keywords identifiers : option (list string))
    (identifiersType : option string) (includedData : option (list string))
    (pageSize : option Z) (pageToken : option string)
| getCatalogItem (asin : string) (includedData : option (list string))
| getListingsItem (sku : string) (includedData : option (list string))
| patchListingsItem (sku : string) (patches : list Json)
| getCompetitivePricing (asins : list string)
| getItemOffers (asin : string) (itemCondition : option string)
| getMyFeesEstimateForSKU (sku : string) (price : Q) (currency : option string)
| getInboundShipments (shipmentStatusList shipmentIdList : option (list string))
    (lastUpdatedAfter lastUpdatedBefore nextToken : option string)
| getShipmentItems (shipmentId : string)
| getFulfillmentPreview (address : option Json) (items : list Json)
| createFulfillmentOrder (order : option Json)
| getFulfillmentOrder (sellerFulfillmentOrderId : string)
| getRates (shipmentDetails : option Json)
| purchaseShipment (shipment : option Json)
| getShipment (shipmentId : string)
| getEligibleShipmentServices (shipmentRequestDetails : option Json)
| createShipment (shipmentRequestDetails : option Json) (shippingServiceId : string)
| listFinancialEventGroups (financialEventGroupStartedAfter
    financialEventGroupStartedBefore : option string)
    (maxResultsPerPage : option Z) (nextToken : option string)
| listFinancialEvents (postedAfter postedBefore : option string)
    (maxResultsPerPage : option Z) (nextToken : option string)
| createReport (reportType : string) (dataStartTime dataEndTime : option string)
    (reportOptions : option (list (string * string)))
    (marketplaceIds : option (list string))
| getReport (reportId : string)
| getReportDocument (reportDocumentId : string)
| getReports (reportTypes processingStatuses : option (list string))
    (createdSince createdUntil : option string) (pageSize : option Z)
    (nextToken : option string)
| createFeed (feedType inputFeedDocumentId : string)
    (marketplaceIds : option (list string))
| getFeed (feedId : string)
| createFeedDocument (contentType : string)
| getSubscription (notificationType : string)
| createSubscription (notificationType destinationId : string)
| getDestinations
| getMessagingActionsForOrder (amazonOrderId : string)
| getSolicitationActionsForOrder (amazonOrderId : string)
| createProductReviewAndSellerFeedbackSolicitation (amazonOrderId : string)
| getAWDInventory (sku sortOrder nextToken : option string)
| getAWDShipment (shipmentId : string)
| listAWDShipments (sortOrder shipmentStatus createdAfter createdBefore
    nextToken : option string)
| getListingsRestrictions (asin : string) (conditionType reasonLocale : option string)
| getOrderMetrics (interval granularity : string)
    (granularityTimeZone buyerType fulfillmentNetwork firstDayOfWeek
     asin sku : option string).

(** A possibly-undefined string as a value of the query object. *)
Definition qv (v : option string) : QueryValue :=
  match v with
  | Some s => QString s
  | None => QUndefined
  end.

(** [list?.join(',')]. *)
Definition joined (l : option (list string)) : option string :=
  Utils.join "," <$> l.

(** [n?.toString()] for a whole number. *)
Definition shown (n : option Z) : option string := pretty <$> n.

(** Truthiness of an optional number: [undefined] and 0 are falsy. *)
Definition nonzero (n : option Z) : bool :=
  match n with
  | Some z => negb (z =? 0)
  | None => false
  end.

(** An object literal as the JSON text built from it will have it: a
    property whose value is [undefined] is left out. *)
Definition object (fields : list (string * option Json)) : Json :=
  JObject (omap (fun kv => pair (fst kv) <$> snd kv) fields).

Definition str (s : string) : option Json := Some (JString s).
Definition strs (l : list string) : Json := JArray (JString <$> l).

(** The query object of [getOrders], built one assignment at a time. *)
Definition getOrders_query (this : SPAPIClient)
    (createdAfter createdBefore : option string)
    (orderStatuses : option (list string)) (maxResultsPerPage : option Z)
    (nextToken : option string) : list (string * QueryValue) :=
  [("MarketplaceIds", QString (marketplaceId this))]
  ++ (if truthy createdAfter then [("CreatedAfter", qv createdAfter)] else [])
  ++ (if truthy createdBefore then [("CreatedBefore", qv createdBefore)] else [])
  ++ (match orderStatuses with
      | Some l => [("OrderStatuses", QString (Utils.join "," l))]
      | None => []
      end)
  ++ (if nonzero maxResultsPerPage
      then [("MaxResultsPerPage", qv (shown maxResultsPerPage))] else [])
  ++ (if truthy nextToken then [("NextToken", qv nextToken)] else []).

Section Descriptors.

(** [encodeURIComponent]. *)
Variable encodeURIComponent : string -> string.
Variable this : SPAPIClient.

Definition GET (path : string) (query : option (list (string * QueryValue)))
  : SPAPIRequestOptions :=
  {| opt_method := None; opt_path := path; opt_query := query;
     opt_body := None; opt_headers := None |}.

Definition SEND (method path : string) (query : option (list (string * QueryValue)))
    (body : option Json) : SPAPIRequestOptions :=
  {| opt_method := Some method; opt_path := path; opt_query := query;
     opt_body := body; opt_headers := None |}.

(** The argument each method passes to [spApiRequest]. *)
Definition descriptor (op : Operation) : SPAPIRequestOptions :=
  let mid := marketplaceId this in
  match op with
  | getMarketplaceParticipations =>
      GET "/sellers/v1/marketplaceParticipations" None
  | getOrders createdAfter createdBefore orderStatuses maxResultsPerPage nextToken =>
      GET "/orders/v0/orders"
        (Some (getOrders_query this createdAfter createdBefore orderStatuses
                 maxResultsPerPage nextToken))
  | getOrder orderId =>
      GET ("/orders/v0/orders/" +:+ orderId) None
  | getOrderItems orderId =>
      GET ("/orders/v0/orders/" +:+ orderId +:+ "/orderItems") None
  | getInventorySummaries granularityType granularityId sellerSkus nextToken =>
      GET "/fba/inventory/v1/summaries"
        (Some [ ("details", QString "true");
                ("granularityType", QString (js_or_default granularityType "Marketplace"));
                ("granularityId", QString (js_or_default granularityId mid));
                ("marketplaceIds", QString mid);
                ("sellerSkus", qv (joined sellerSkus));
                ("nextToken", qv nextToken) ])
  | searchCatalogItems keywords identifiers identifiersType includedData pageSize pageToken =>
      GET "/catalog/2022-04-01/items"
        (Some [ ("marketplaceIds", QString mid);
                ("keywords", qv (joined keywords));
                ("identifiers", qv (joined identifiers));
                ("identifiersType", qv identifiersType);
                ("includedData", QString (js_or_default (joined includedData) "summaries,images"));
                ("pageSize", QString (js_or_default (shown pageSize) "10"));
                ("pageToken", qv pageToken) ])
  | getCatalogItem asin includedData =>
      GET ("/catalog/2022-04-01/items/" +:+ asin)
        (Some [ ("marketplaceIds", QString mid);
                ("includedData",
                 QString (js_or_default (joined includedData) "summaries,images,attributes")) ])
  | getListingsItem sku includedData =>
      GET ("/listings/2021-08-01/items/" +:+ sellerId this +:+ "/" +:+ encodeURIComponent sku)
        (Some [ ("marketplaceIds", QString mid);
                ("includedData",
                 QString (js_or_default (joined includedData) "summaries,attributes,issues")) ])
  | patchListingsItem sku patches =>
      SEND "PATCH"
        ("/listings/2021-08-01/items/" +:+ sellerId this +:+ "/" +:+ encodeURIComponent sku)
        (Some [ ("marketplaceIds", QString mid) ])
        (Some (object [ ("patches", Some (JArray patches)) ]))
  | getCompetitivePricing asins =>
      GET "/products/pricing/v0/competitivePrice"
        (Some [ ("MarketplaceId", QString mid);
                ("ItemType", QString "Asin");
                ("Asins", QString (Utils.join "," asins)) ])
  | getItemOffers asin itemCondition =>
      GET ("/products/pricing/v0/items/" +:+ asin +:+ "/offers")
        (Some [ ("MarketplaceId", QString mid);
                ("ItemCondition", QString (default "New" itemCondition)) ])
  | getMyFeesEstimateForSKU sku price currency =>
      SEND "POST"
        ("/products/fees/v0/listings/" +:+ encodeURIComponent sku +:+ "/feesEstimate")
        None
        (Some (object
           [ ("FeesEstimateRequest",
              Some (object
                [ ("MarketplaceId", str mid);
                  ("IsAmazonFulfilled", Some (JBool true));
                  ("PriceToEstimateFees",
                   Some (object
                     [ ("ListingPrice",
                        Some (object [ ("CurrencyCode", str (default "USD" currency));
                                       ("Amount", Some (JNumber price)) ])) ]));
                  ("Identifier", str sku) ])) ]))
  | getInboundShipments shipmentStatusList shipmentIdList lastUpdatedAfter
      lastUpdatedBefore nextToken =>
      GET "/fba/inbound/v0/shipments"
        (Some [ ("MarketplaceId", QString mid);
                ("ShipmentStatusList", qv (joined shipmentStatusList));
                ("ShipmentIdList", qv (joined shipmentIdList));
                ("LastUpdatedAfter", qv lastUpdatedAfter);
                ("LastUpdatedBefore", qv lastUpdatedBefore);
                ("QueryType", QString (match shipmentIdList with
                                       | Some _ => "SHIPMENT"
                                       | None => "DATE_RANGE"
                                       end));
                ("NextToken", qv nextToken) ])
  | getShipmentItems shipmentId =>
      GET ("/fba/inbound/v0/shipments/" +:+ shipmentId +:+ "/items")
        (Some [ ("MarketplaceId", QString mid) ])
  | getFulfillmentPreview address items =>
      SEND "POST" "/fba/outbound/2020-07-01/fulfillmentOrders/preview" None
        (Some (object [ ("marketplaceId", str mid);
                        ("address", address);
                        ("items", Some (JArray items)) ]))
  | createFulfillmentOrder order =>
      SEND "POST" "/fba/outbound/2020-07-01/fulfillmentOrders" None order
  | getFulfillmentOrder sellerFulfillmentOrderId =>
      GET ("/fba/outbound/2020-07-01/fulfillmentOrders/" +:+ sellerFulfillmentOrderId) None
  | getRates shipmentDetails =>
      SEND "POST" "/shipping/v2/shipments/rates" None shipmentDetails
  | purchaseShipment shipment =>
      SEND "POST" "/shipping/v2/shipments" None shipment
  | getShipment shipmentId =>
      GET ("/shipping/v2/shipments/" +:+ shipmentId) None
  | getEligibleShipmentServices shipmentRequestDetails =>
      SEND "POST" "/mfn/v0/eligibleShippingServices" None
        (Some (object [ ("ShipmentRequestDetails", shipmentRequestDetails) ]))
  | createShipment shipmentRequestDetails shippingServiceId =>
      SEND "POST" "/mfn/v0/shipments" None
        (Some (object [ ("ShipmentRequestDetails", shipmentRequestDetails);
                        ("ShippingServiceId", str shippingServiceId) ]))
  | listFinancialEventGroups startedAfter startedBefore maxResultsPerPage nextToken =>
      GET "/finances/v0/financialEventGroups"
        (Some [ ("FinancialEventGroupStartedAfter", qv startedAfter);
                ("FinancialEventGroupStartedBefore", qv startedBefore);
                ("MaxResultsPerPage", qv (shown maxResultsPerPage));
                ("NextToken", qv nextToken) ])
  | listFinancialEvents postedAfter postedBefore maxResultsPerPage nextToken =>
      GET "/finances/v0/financialEvents"
        (Some [ ("PostedAfter", qv postedAfter);
                ("PostedBefore", qv postedBefore);
                ("MaxResultsPerPage", qv (shown maxResultsPerPage));
                ("NextToken", qv nextToken) ])
  | createReport reportType dataStartTime dataEndTime reportOptions marketplaceIds =>
      SEND "POST" "/reports/2021-06-30/reports" None
        (Some (object
           [ ("reportType", str reportType);
             ("dataStartTime", JString <$> dataStartTime);
             ("dataEndTime", JString <$> dataEndTime);
             ("reportOptions",
              (fun l => JObject (prod_map id JString <$> l)) <$> reportOptions);
             ("marketplaceIds", Some (strs (default [mid] marketplaceIds))) ]))
  | getReport reportId =>
      GET ("/reports/2021-06-30/reports/" +:+ reportId) None
  | getReportDocument reportDocumentId =>
      GET ("/reports/2021-06-30/documents/" +:+ reportDocumentId) None
  | getReports reportTypes processingStatuses createdSince createdUntil pageSize nextToken =>
      GET "/reports/2021-06-30/reports"
        (Some [ ("reportTypes", qv (joined reportTypes));
                ("processingStatuses", qv (joined processingStatuses));
                ("createdSince", qv createdSince);
                ("createdUntil", qv createdUntil);
                ("pageSize", qv (shown pageSize));
                ("nextToken", qv nextToken);
                ("marketplaceIds", QString mid) ])
  | createFeed feedType inputFeedDocumentId marketplaceIds =>
      SEND "POST" "/feeds/2021-06-30/feeds" None
        (Some (object
           [ ("feedType", str feedType);
             ("inputFeedDocumentId", str inputFeedDocumentId);
             ("marketplaceIds", Some (strs (default [mid] marketplaceIds))) ]))
  | getFeed feedId =>
      GET ("/feeds/2021-06-30/feeds/" +:+ feedId) None
  | createFeedDocument contentType =>
      SEND "POST" "/feeds/2021-06-30/documents" None
        (Some (object [ ("contentType", str contentType) ]))
  | getSubscription notificationType =>
      GET ("/notifications/v1/subscriptions/" +:+ notificationType) None
  | createSubscription notificationType destinationId =>
      SEND "POST" ("/notifications/v1/subscriptions/" +:+ notificationType) None
        (Some (object [ ("destinationId", str destinationId) ]))
  | getDestinations =>
      GET "/notifications/v1/destinations" None
  | getMessagingActionsForOrder amazonOrderId =>
      GET ("/messaging/v1/orders/" +:+ amazonOrderId)
        (Some [ ("marketplaceIds", QString mid) ])
  | getSolicitationActionsForOrder amazonOrderId =>
      GET ("/solicitations/v1/orders/" +:+ amazonOrderId)
        (Some [ ("marketplaceIds", QString mid) ])
  | createProductReviewAndSellerFeedbackSolicitation amazonOrderId =>
      SEND "POST"
        ("/solicitations/v1/orders/" +:+ amazonOrderId
           +:+ "/solicitations/productReviewAndSellerFeedback")
        (Some [ ("marketplaceIds", QString mid) ]) None
  | getAWDInventory sku sortOrder nextToken =>
      GET "/awd/2024-05-09/inventory"
        (Some [ ("sku", qv sku); ("sortOrder", qv sortOrder); ("nextToken", qv nextToken) ])
  | getAWDShipment shipmentId =>
      GET ("/awd/2024-05-09/inboundShipments/" +:+ shipmentId) None
  | listAWDShipments sortOrder shipmentStatus createdAfter createdBefore nextToken =>
      GET "/awd/2024-05-09/inboundShipments"
        (Some [ ("sortOrder", qv sortOrder);
                ("shipmentStatus", qv shipmentStatus);
                ("createdAfter", qv createdAfter);
                ("createdBefore", qv createdBefore);
                ("nextToken", qv nextToken) ])
  | getListingsRestrictions asin conditionType reasonLocale =>
      GET "/listings/2021-08-01/restrictions"
        (Some [ ("asin", QString asin);
                ("sellerId", QString (sellerId this));
                ("marketplaceIds", QString mid);
                ("conditionType", qv conditionType);
                ("reasonLocale", QString (js_or_default reasonLocale "en_US")) ])
  | getOrderMetrics interval granularity granularityTimeZone buyerType
      fulfillmentNetwork firstDayOfWeek asin sku =>
      GET "/sales/v1/orderMetrics"
        (Some [ ("marketplaceIds", QString mid);
                ("interval", QString interval);
                ("granularity", QString granularity);
                ("granularityTimeZone", qv granularityTimeZone);
                ("buyerType", QString (js_or_default buyerType "All"));
                ("fulfillmentNetwork", qv fulfillmentNetwork);
                ("firstDayOfWeek", qv firstDayOfWeek);
                ("asin", qv asin);
                ("sku", qv sku) ])
  end.

End Descriptors.

End Facade.

(** ** Route handlers that call the client *)
Module Routes.

(** The JSON payload of the health route. *)
Record HealthReport : Type := mkHealthReport {
  h_status : string;
  h_configured : bool;
  h_message : string;
  h_missing : option (list string);
  h_marketplaces : option Json
}.

Inductive TestStatus : Type := test_success | test_error | test_skipped.

(** [interface TestResult]. *)
Record TestResult : Type := mkTestResult {
  r_name : string;
  r_endpoint : string;
  r_status : TestStatus;
  r_responseTime : option Z;
  r_message : option string;
  r_data : option Json
}.

(** One entry of the [tests] array. *)
Record TestCase : Type := mkTestCase {
  t_name : string;
  t_endpoint : string;
  t_fn : M SPAPIResponse
}.

(** The JSON payload of the test-all route. *)
Inductive TestAllReport : Type :=
| MissingCredentials (missing : list string)
| Summary (success : bool) (total successes errors : nat)
    (results : list TestResult) (timestamp : string).

Definition is_success (r : TestResult) : bool :=
  match r_status r with test_success => true | _ => false end.
Definition is_error (r : TestResult) : bool :=
  match r_status r with test_error => true | _ => false end.

(** The message of the [catch] clauses. *)
Definition message_of (e : JsExn) : string :=
  match e with
  | JsError message => message
  | JsNonError => "Unknown error"
  end.

Section WithPlatform.

Variable P : Platform.
(** The functions imported from the auth module and the client module. *)
Variable validateCredentials : gmap string string -> Validation.
Variable getAccessToken : M string.
Variable getSTSCredentials : M Credentials.
Variable T : RateTable.
Variable encodeURIComponent : string -> string.
(** The exported singleton. *)
Variable spApiClient : Facade.SPAPIClient.
(** [new Date(t).toISOString()]. *)
Variable toISOString : Z -> string.

(** A method call on the singleton. *)
Definition call (op : Facade.Operation) : M SPAPIResponse :=
  Client.spApiRequest P getAccessToken getSTSCredentials T
    (Facade.descriptor encodeURIComponent spApiClient op).

(** [GET] of the health route. *)
Definition health_GET : M HealthReport :=
  try_catch
    (let* e := gets env in
     let v := validateCredentials e in
     if negb (valid v) then
       ret {| h_status := "not_configured"; h_configured := false;
              h_message := "Missing required credentials";
              h_missing := Some (missing v); h_marketplaces := None |}
     else
       let* result := call Facade.getMarketplaceParticipations in
       if success result then
         ret {| h_status := "healthy"; h_configured := true;
                h_message := "SP-API connection successful";
                h_missing := None; h_marketplaces := data result |}
       else
         ret {| h_status := "error"; h_configured := true;
                h_message := js_or_default (error result) "Failed to connect to SP-API";
                h_missing := None; h_marketplaces := None |})
    (fun e =>
       ret {| h_status := "error"; h_configured := false;
              h_message := message_of e;
              h_missing := None; h_marketplaces := None |}).

Definition day_ms : Z := 24 * 60 * 60 * 1000.

(** The [tests] array of the test-all route. *)
Definition tests : list TestCase :=
  [ {| t_name := "Sellers API";
       t_endpoint := "/sellers/v1/marketplaceParticipations";
       t_fn := call Facade.getMarketplaceParticipations |};
    {| t_name := "Orders API";
       t_endpoint := "/orders/v0/orders";
       t_fn := let* now := Date_now in
               call (Facade.getOrders (Some (toISOString (now - 7 * day_ms)))
                       None None (Some 5) None) |};
    {| t_name := "FBA Inventory API";
       t_endpoint := "/fba/inventory/v1/summaries";
       t_fn := call (Facade.getInventorySummaries None None None None) |};
    {| t_name := "Catalog API";
       t_endpoint := "/catalog/2022-04-01/items";
       t_fn := call (Facade.searchCatalogItems (Some ["test"]) None None None
                       (Some 1) None) |};
    {| t_name := "Reports API";
       t_endpoint := "/reports/2021-06-30/reports";
       t_fn := call (Facade.getReports None None None None (Some 5) None) |};
    {| t_name := "Finances API";
       t_endpoint := "/finances/v0/financialEvents";
       t_fn := let* now := Date_now in
               call (Facade.listFinancialEvents (Some (toISOString (now - 30 * day_ms)))
                       None (Some 5) None) |};
    {| t_name := "Notifications API";
       t_endpoint := "/notifications/v1/destinations";
       t_fn := call Facade.getDestinations |};
    {| t_name := "Fulfillment Inbound API";
       t_endpoint := "/fba/inbound/v0/shipments";
       t_fn := let* now := Date_now in
               call (Facade.getInboundShipments None None
                       (Some (toISOString (now - 90 * day_ms))) None None) |} ].

(** [result.statusCode] interpolated into a template. *)
Definition shown_status (s : option Z) : string :=
  match s with
  | Some z => pretty z
  | None => "undefined"
  end.

(** The body of the loop up to the delay. *)
Definition run_test (test : TestCase) : M TestResult :=
  let* startTime := Date_now in
  try_catch
    (let* result := t_fn test in
     let* finished := Date_now in
     let responseTime := finished - startTime in
     if success result then
       ret {| r_name := t_name test; r_endpoint := t_endpoint test;
              r_status := test_success; r_responseTime := Some responseTime;
              r_message := Some "OK"; r_data := data result |}
     else
       ret {| r_name := t_name test; r_endpoint := t_endpoint test;
              r_status := test_error; r_responseTime := Some responseTime;
              r_message := Some (js_or_default (error result)
                                   ("HTTP " +:+ shown_status (statusCode result)));
              r_data := None |})
    (fun e =>
       let* finished := Date_now in
       ret {| r_name := t_name test; r_endpoint := t_endpoint test;
              r_status := test_error; r_responseTime := Some (finished - startTime);
              r_message := Some (message_of e); r_data := None |}).

(** [for (const test of tests) { ...; await delay of 200 ms }]. *)
Fixpoint run_tests (remaining : list TestCase) (results : list TestResult)
  : M (list TestResult) :=
  match remaining with
  | [] => ret results
  | test :: rest =>
      let* r := run_test test in
      setTimeout_await P 200 ;;
      run_tests rest (results ++ [r])%list
  end.

(** [GET] of the test-all route. *)
Definition test_all_GET : M TestAllReport :=
  let* e := gets env in
  let v := validateCredentials e in
  if negb (valid v) then ret (MissingCredentials (missing v))
  else
    let* results := run_tests tests [] in
    let successCount := length (List.filter is_success results) in
    let errorCount := length (List.filter is_error results) in
    let* now := Date_now in
    ret (Summary (Nat.eqb errorCount 0) (length results) successCount errorCount
           results (toISOString now)).

End WithPlatform.

End Routes.


(** * Vocabulary of the statements *)

(** A key is present when [process.env[key]] is a non-empty string. *)
Definition present (e : gmap string string) (key : string) : Prop :=
  truthy (e !! key) = true.

(** What [validateCredentials] promises for a given list of required keys. *)
Definition validation_contract (e : gmap string string)
    (required : list string) (v : Validation) : Prop :=
  (v = {| valid := true; missing := [] |} <-> Forall (present e) required)
  /\ (valid v = false <-> exists k, In k required /\ ~ present e k)
  /\ missing v `sublist_of` required
  /\ (forall k, In k (missing v) <-> In k required /\ ~ present e k)
  /\ ((forall k, In k required ->
         (present e k <-> k <> "REFRESH_TOKEN" /\ k <> "SELLER_ID")) ->
      v = {| valid := false; missing := ["REFRESH_TOKEN"; "SELLER_ID"] |}).

(** What a failed call leaves behind: an exception, and module state equal
    to the state before the call. *)
Definition throws_leaving_state (m : M string) (w : World) (r : HttpResponse) : Prop :=
  exists e w',
    m w = (Thrown e, w')
    /\ cachedToken w' = cachedToken w
    /\ requestTimestamps w' = requestTimestamps w
    /\ env w' = env w
    /\ (forall txt, body_text r = Returned txt ->
          e = JsError ("Failed to refresh token: " +:+ txt)).

(** The world a call to [checkRateLimit] leaves behind, spelled out: the
    log of the category becomes the pruned log followed by the time read at
    entry; the clock moves only when the call suspends. *)
Definition after_check (P : Platform) (T : RateTable) (apiType : string) (w : World) : World :=
  let limit := Client.limit_for T apiType in
  let now := clock w in
  let log := Client.prune limit now (default [] (requestTimestamps w !! apiType)) in
  let logs := <[ apiType := (log ++ [now])%list ]> (requestTimestamps w) in
  if Client.at_limit limit log then
    let ms := default 0 (Client.waitTime limit now log) in
    {| clock := now + Z.max 0 ms + Z.of_N (timer_lag P (timer_count (trace w)));
       env := env w;
       cachedToken := cachedToken w;
       requestTimestamps := logs;
       trace := (trace w ++ [EvCheckRateLimit apiType; EvSetTimeout ms])%list |}
  else
    {| clock := now;
       env := env w;
       cachedToken := cachedToken w;
       requestTimestamps := logs;
       trace := (trace w ++ [EvCheckRateLimit apiType])%list |}.

(** Time passing between two calls. *)
Definition elapse (d : N) (w : World) : World := set_clock (clock w + Z.of_N d) w.

(** A call was not delayed: no timer was armed and the clock did not move. *)
Definition undelayed (w w' : World) : Prop :=
  clock w' = clock w /\ timer_count (trace w') = timer_count (trace w).

(** The log of a category as [checkRateLimit] reads it. *)
Definition log_of (w : World) (apiType : string) : list Z :=
  default [] (requestTimestamps w !! apiType).

(** Every log is in ascending order and holds no time later than the
    clock. *)
Definition logs_ordered (w : World) : Prop :=
  forall apiType, StronglySorted Z.le (log_of w apiType ++ [clock w])%list.

(** Events that can follow the rate-limiter gate. *)
Definition after_gate (e : Event) : bool :=
  match e with
  | EvSetTimeout _ | EvSign _ _ | EvFetch _ => true
  | _ => false
  end.

(** The pair returned when no static keys are configured. *)
Definition dummy_credentials : Credentials :=
  {| accessKeyId := Some ""; secretAccessKey := Some ""; sessionToken := None |}.

(** The order the description gives to the executor's steps: every entry
    into the limiter comes before every entry into [getAccessToken]. *)
Definition gate_before_token (tr : list Event) : Prop :=
  forall (i j : nat) (cat : string),
    tr !! i = Some (EvCheckRateLimit cat) ->
    tr !! j = Some EvGetAccessToken ->
    (i < j)%nat.


(** ** Worked scenarios *)

Module Scenario.

(** The double-quote character, for JSON text. *)
Definition dq : string := String (Ascii.ascii_of_nat 34) "".
Definition quoted (s : string) : string := dq +:+ s +:+ dq.

(** The body [{"errors":[{"message":"not found"}]}]. *)
Definition not_found_body : string :=
  "{" +:+ quoted "errors" +:+ ":[{" +:+ quoted "message" +:+ ":"
      +:+ quoted "not found" +:+ "}]}".

(** A stand-in signer: it adds an [Authorization] header naming the key id
    it was given. *)
Definition stub_sign (r : Aws4Request) (c : Credentials) : Outcome Aws4Request :=
  Returned {| a_host := a_host r; a_method := a_method r; a_path := a_path r;
              a_headers := <[ "Authorization" :=
                                "AWS4-HMAC-SHA256 Credential=" +:+ default "" (accessKeyId c) ]>
                             (a_headers r);
              a_service := a_service r; a_region := a_region r; a_body := a_body r |}.

(** A platform answering every [fetch] with the same reply. *)
Definition platform (reply : FetchReply) : Platform :=
  {| fetch_reply := fun _ _ => reply;
     timer_lag := fun _ => 0%N;
     JSON_parse := fun s => if String.prefix "{" s then Some (JObject []) else None;
     JSON_stringify := fun _ => "{}";
     response_json := fun _ => Some {| access_token := "Atza|fresh"; expires_in := 3600 |};
     URL_host := fun _ => Returned "sellingpartnerapi-na.amazon.com";
     URLSearchParams_toString := fun _ => "MarketplaceIds=ATVPDKIKX0DER";
     aws4_sign := stub_sign;
     regex_capture := fun _ _ => None |}.

Definition responds (code : Z) (body : string) : FetchReply :=
  {| latency := 120; completion := Returned {| status := code; body_text := Returned body |} |}.

Definition network_down : FetchReply :=
  {| latency := 30; completion := Thrown (JsError "fetch failed") |}.

Definition now0 : Z := 1700000000000.

(** Login-with-Amazon keys only: no signing keys, no role. *)
Definition lwa_env : gmap string string :=
  <[ "LWA_CLIENT_ID" := "amzn1.application-oa2-client.x" ]>
  (<[ "LWA_CLIENT_SECRET" := "secret" ]>
  (<[ "MARKETPLACE_ID" := "ATVPDKIKX0DER" ]> ∅)).

(** All keys of the role-based revision, and a role. *)
Definition role_env : gmap string string :=
  <[ "AWS_ROLE_ARN" := "arn:aws:iam::123456789012:role/SellingPartner" ]>
  (<[ "AWS_ACCESS_KEY_ID" := "AKIAEXAMPLE" ]>
  (<[ "AWS_SECRET_ACCESS_KEY" := "wJalr" ]>
  (<[ "REFRESH_TOKEN" := "Atzr|r" ]>
  (<[ "SELLER_ID" := "A1SELLER" ]> lwa_env)))).

(** All keys but REFRESH_TOKEN and SELLER_ID. *)
Definition env_missing_two : gmap string string :=
  <[ "AWS_ACCESS_KEY_ID" := "AKIAEXAMPLE" ]>
  (<[ "AWS_SECRET_ACCESS_KEY" := "wJalr" ]> lwa_env).

Definition cached (margin : Z) : option CachedToken :=
  Some {| accessToken := "Atza|cached"; expiresAt := now0 + margin |}.

Definition world (e : gmap string string) (c : option CachedToken)
    (logs : gmap string (list Z)) : World :=
  {| clock := now0; env := e; cachedToken := c; requestTimestamps := logs; trace := [] |}.

(** A process holding a token valid for an hour. *)
Definition warm : World := world lwa_env (cached 3600000) ∅.
(** The same with a token 59 s from expiry. *)
Definition stale : World := world lwa_env (cached 59000) ∅.
(** The role-based configuration with a valid token. *)
Definition with_role : World := world role_env (cached 3600000) ∅.
(** Two inventory calls already logged 500 ms and 400 ms ago. *)
Definition saturated : World :=
  world lwa_env (cached 3600000) {[ "inventory" := [now0 - 500; now0 - 400] ]}.

Definition get_orders : SPAPIRequestOptions :=
  {| opt_method := None; opt_path := "/orders/v0/orders";
     opt_query := Some [("MarketplaceIds", QString "ATVPDKIKX0DER")];
     opt_body := None; opt_headers := None |}.

(** The executor wired to the token-only auth module and the shipped table. *)
Definition execute (p : Platform) : SPAPIRequestOptions -> M SPAPIResponse :=
  Client.spApiRequest p (Auth.getAccessToken p) Auth.getSTSCredentials Client.RATE_LIMITS.

End Scenario.

(** No character of the text is the separator. *)
Fixpoint lacks (sep : ascii) (s : string) : bool :=
  match s with
  | EmptyString => true
  | String c rest => negb (Ascii.eqb c sep) && lacks sep rest
  end.

(** [seg || 'default']. *)
Definition or_default (seg : string) : string :=
  if String.eqb seg "" then "default" else seg.

(** How bad a stock level is. *)
Definition severity (l : Utils.StockLevel) : nat :=
  match l with
  | Utils.healthy => 0
  | Utils.low => 1
  | Utils.critical => 2
  | Utils.out => 3
  end.


(** The first path segments used by the methods of [SPAPIClient]. *)
Definition facade_categories : list string :=
  [ "sellers"; "orders"; "fba"; "catalog"; "listings"; "products"; "shipping";
    "mfn"; "finances"; "reports"; "feeds"; "notifications"; "messaging";
    "solicitations"; "awd"; "sales" ].

(** The headers object the executor hands to the signer: the two defaults,
    overridden by the caller's headers. *)
Definition merged_headers (options : SPAPIRequestOptions) (accessToken : string)
  : gmap string string :=
  default ∅ (opt_headers options)
  ∪ <[ "x-amz-access-token" := accessToken ]> {[ "Content-Type" := "application/json" ]}.

(** What every run of [getAccessToken] leaves of the module state. *)
Definition token_run_safe (m : M string) (w : World) : Prop :=
  let w' := snd (m w) in
  env w' = env w
  /\ requestTimestamps w' = requestTimestamps w
  /\ clock w <= clock w'
  /\ match fst (m w) with
     | Thrown _ => cachedToken w' = cachedToken w
     | Returned v => exists tok, cachedToken w' = Some tok /\ accessToken tok = v
     end.


(** A sequence of limiter calls, each made some time after the previous one
    returned, on the category given. *)
Fixpoint calls (P : Platform) (T : RateTable) (script : list (N * string))
    (w : World) : World :=
  match script with
  | [] => w
  | (gap, apiType) :: rest =>
      calls P T rest (snd (Client.checkRateLimit P T apiType (elapse gap w)))
  end.


(** More inputs for worked examples. *)
Module Samples.

(** An identity provider that grants tokens for 45 seconds. *)
Definition short_lived (reply : FetchReply) : Platform :=
  {| fetch_reply := fun _ _ => reply;
     timer_lag := fun _ => 0%N;
     JSON_parse := fun _ => None;
     JSON_stringify := fun _ => "{}";
     response_json := fun _ => Some {| access_token := "Atza|brief"; expires_in := 45 |};
     URL_host := fun _ => Returned "sellingpartnerapi-na.amazon.com";
     URLSearchParams_toString := fun _ => "";
     aws4_sign := Scenario.stub_sign;
     regex_capture := fun _ _ => None |}.

(** A request whose caller sets the token header itself. *)
Definition with_own_token : SPAPIRequestOptions :=
  {| opt_method := None; opt_path := "/sellers/v1/marketplaceParticipations";
     opt_query := None; opt_body := None;
     opt_headers := Some {[ "x-amz-access-token" := "caller-token" ]} |}.

(** A POST whose body is [null]. *)
Definition post_null : SPAPIRequestOptions :=
  {| opt_method := Some "POST"; opt_path := "/shipping/v2/shipments";
     opt_query := None; opt_body := Some JNull; opt_headers := None |}.

(** A fully configured process holding a valid token. *)
Definition configured : World := Scenario.with_role.

Definition client : Facade.SPAPIClient := Facade.new_SPAPIClient Scenario.role_env.

End Samples.


(** * Properties *)

(** Unfolds the monadic plumbing. *)
Ltac run_monad :=
  unfold bind, ret, throw, gets, modify, lift, emit, Date_now, process_env,
    try_catch; simpl.

(** ** Traces *)

Lemma fetch_count_app (l1 l2 : list Event) :
  fetch_count (l1 ++ l2) = (fetch_count l1 + fetch_count l2)%nat.
Proof. unfold fetch_count. rewrite List.filter_app, length_app. reflexivity. Qed.

Lemma timer_count_app (l1 l2 : list Event) :
  timer_count (l1 ++ l2) = (timer_count l1 + timer_count l2)%nat.
Proof. unfold timer_count. rewrite List.filter_app, length_app. reflexivity. Qed.

(** ** Credential validation *)

Section Validation.

Variable e : gmap string string.

Lemma missing_spec (required : list string) (k : string) :
  In k (missing (validate_against required e)) <-> In k required /\ ~ present e k.
Proof.
  unfold validate_against, present; simpl.
  rewrite List.filter_In, negb_true_iff, not_true_iff_false. tauto.
Qed.

Lemma missing_sublist (required : list string) :
  missing (validate_against required e) `sublist_of` required.
Proof.
  unfold validate_against; simpl.
  induction required as [|k ks IH]; simpl.
  - constructor.
  - destruct (negb (truthy (e !! k))); [apply sublist_skip | apply sublist_cons]; exact IH.
Qed.

Lemma missing_nil_iff (required : list string) :
  missing (validate_against required e) = [] <-> Forall (present e) required.
Proof.
  unfold validate_against, present; simpl.
  induction required as [|k ks IH]; simpl.
  - split; [constructor | reflexivity].
  - destruct (truthy (e !! k)) eqn:Hk; simpl.
    + rewrite IH. split; [intros H; constructor; assumption | intros H; inversion H; assumption].
    + split; [discriminate | intros H; inversion H; congruence].
Qed.

Lemma valid_iff_missing_nil (required : list string) :
  valid (validate_against required e) = true <->
  missing (validate_against required e) = [].
Proof.
  unfold validate_against; simpl.
  destruct (List.filter _ required); simpl; split; congruence.
Qed.

End Validation.

Lemma present_dec (e : gmap string string) (k : string) :
  {present e k} + {~ present e k}.
Proof. unfold present. destruct (truthy (e !! k)); [left | right]; congruence. Defined.

Lemma filter_ext_in_bool (f g : string -> bool) (l : list string) :
  (forall k, In k l -> f k = g k) -> List.filter f l = List.filter g l.
Proof.
  induction l as [|k ks IH]; simpl; intros H; [reflexivity|].
  rewrite (H k) by (left; reflexivity).
  rewrite IH by (intros; apply H; right; assumption). reflexivity.
Qed.

Lemma validate_against_contract (e : gmap string string) (required : list string) :
  List.filter (fun k => negb (negb (String.eqb k "REFRESH_TOKEN") && negb (String.eqb k "SELLER_ID"))) required
    = ["REFRESH_TOKEN"; "SELLER_ID"] ->
  validation_contract e required (validate_against required e).
Proof.
  intros Htwo. unfold validation_contract.
  pose proof (missing_nil_iff e required) as Hnil.
  pose proof (valid_iff_missing_nil e required) as Hval.
  refine (conj _ (conj _ (conj _ (conj _ _)))); [split | split | | | ].
  - intros Hv. apply Hnil. rewrite Hv. reflexivity.
  - intros Hall. apply Hnil in Hall. unfold validate_against in *; simpl in *.
    rewrite Hall. reflexivity.
  - intros Hv. unfold validate_against in Hv; simpl in Hv.
    destruct (List.filter (fun key => negb (truthy (e !! key))) required)
      as [|k ks] eqn:Hf; [discriminate|].
    exists k. apply (missing_spec e required). unfold validate_against; simpl.
    rewrite Hf. left; reflexivity.
  - intros (k & Hk & Hn). apply not_true_is_false. intros Hv.
    apply Hval, Hnil in Hv. rewrite List.Forall_forall in Hv. apply Hn, Hv, Hk.
  - apply missing_sublist.
  - intros k. apply missing_spec.
  - intros Hshape. unfold validate_against; simpl.
    assert (List.filter (fun key => negb (truthy (e !! key))) required
            = ["REFRESH_TOKEN"; "SELLER_ID"]) as Hm.
    { rewrite <- Htwo. apply filter_ext_in_bool. intros k Hk.
      specialize (Hshape k Hk). unfold present in Hshape.
      destruct (String.eqb_spec k "REFRESH_TOKEN") as [E1 | N1];
        destruct (String.eqb_spec k "SELLER_ID") as [E2 | N2]; simpl;
        destruct (truthy (e !! k)) eqn:Ht; simpl; try reflexivity; exfalso.
      all: try (destruct Hshape as [Hs _]; destruct (Hs eq_refl); congruence).
      destruct Hshape as [_ Hs]. specialize (Hs (conj N1 N2)). discriminate. }
    rewrite Hm. reflexivity.
Qed.

(** C9.  [validateCredentials] is a total function returning a record (it
    cannot throw); in both revisions of the module the result is
    [{valid: true, missing: []}] exactly when every required key is present,
    [valid] is false exactly when some required key is absent, [missing]
    lists exactly the absent required keys in the order of the required-keys
    list, and when exactly REFRESH_TOKEN and SELLER_ID are absent the result
    is [{valid: false, missing: ["REFRESH_TOKEN"; "SELLER_ID"]}]. *)
Theorem validateCredentials_reports_missing (e : gmap string string) :
  validation_contract e Auth.required (Auth.validateCredentials e)
  /\ validation_contract e AuthRole.required (AuthRole.validateCredentials e).
Proof.
  split; apply validate_against_contract; reflexivity.
Qed.

(** ** Token manager *)

Section TokenManager.

Variable P : Platform.

(** With a valid cache entry no request leaves the process: only the entry
    marker is recorded and the cached value comes back. *)
Lemma getAccessToken_hit (w : World) (tok : CachedToken) :
  cachedToken w = Some tok ->
  expiresAt tok > clock w + 60000 ->
  Auth.getAccessToken P w = (Returned (accessToken tok), add_event EvGetAccessToken w).
Proof.
  intros Hc Hv. unfold Auth.getAccessToken. run_monad. rewrite Hc.
  apply Z.gtb_gt in Hv. rewrite Hv. reflexivity.
Qed.

(** Without one, the refresh exchange is the first thing that happens. *)
Lemma getAccessToken_miss (w : World) :
  cache_valid (cachedToken w) (clock w) = false ->
  Auth.getAccessToken P w = Auth.refreshToken P (add_event EvGetAccessToken w).
Proof.
  intros Hv. unfold Auth.getAccessToken. run_monad.
  unfold cache_valid in Hv. destruct (cachedToken w) as [tok|]; [|reflexivity].
  rewrite Hv. reflexivity.
Qed.

(** The refresh exchange always performs exactly one [fetch], to the token
    endpoint. *)
Lemma refreshToken_trace (w : World) :
  trace (snd (Auth.refreshToken P w)) = (trace w ++ [EvFetch (token_request (env w))])%list.
Proof.
  unfold Auth.refreshToken, fetch, response_json_token, response_text. run_monad.
  destruct (completion _) as [r|ex]; simpl; [|reflexivity].
  destruct (negb (ok r)); simpl.
  - destruct (body_text r); reflexivity.
  - destruct (body_text r) as [txt|]; simpl; [|reflexivity].
    destruct (response_json P txt); reflexivity.
Qed.

End TokenManager.

Section TokenCache.

Variable P : Platform.

Lemma cache_valid_spec (c : option CachedToken) (now : Z) :
  cache_valid c now = true <-> exists tok, c = Some tok /\ expiresAt tok > now + 60000.
Proof.
  unfold cache_valid. destruct c as [tok|].
  - rewrite Z.gtb_gt. split; [eauto | intros (t & [= <-] & H); exact H].
  - split; [discriminate | intros (t & [=] & _)].
Qed.

(** On a miss the trace grows by the entry marker and one token request. *)
Lemma getAccessToken_miss_trace (w : World) :
  cache_valid (cachedToken w) (clock w) = false ->
  trace (snd (Auth.getAccessToken P w))
  = (trace w ++ [EvGetAccessToken; EvFetch (token_request (env w))])%list.
Proof.
  intros Hv. rewrite getAccessToken_miss by exact Hv.
  rewrite refreshToken_trace. simpl. rewrite <- app_assoc. reflexivity.
Qed.

(** A returned token is the one left in the cache. *)
Lemma getAccessToken_returns_cached (w : World) (v : string) :
  fst (Auth.getAccessToken P w) = Returned v ->
  exists tok, cachedToken (snd (Auth.getAccessToken P w)) = Some tok
              /\ accessToken tok = v.
Proof.
  destruct (cache_valid (cachedToken w) (clock w)) eqn:Hv.
  - apply cache_valid_spec in Hv as (tok & Hc & Hgt).
    rewrite (getAccessToken_hit P w tok Hc Hgt). simpl.
    intros [= <-]. exists tok. split; [exact Hc | reflexivity].
  - rewrite getAccessToken_miss by exact Hv.
    unfold Auth.refreshToken, fetch, response_json_token, response_text. run_monad.
    destruct (completion _) as [r|ex]; simpl; [|discriminate].
    destruct (negb (ok r)); simpl.
    + destruct (body_text r); simpl; discriminate.
    + destruct (body_text r) as [txt|]; simpl; [|discriminate].
      destruct (response_json P txt) as [d|]; simpl; [|discriminate].
      intros [= <-]. eexists. split; reflexivity.
Qed.

(** C2.  [getAccessToken] returns the cached value with no network call
    exactly when a cached token exists whose [expiresAt] is strictly greater
    than [now + 60000].  A cached token expiring at [now + 59000] triggers the
    refresh exchange, one expiring at [now + 61000] does not, and after a
    call that returned a token, a later call made while that token is still
    valid (by the same test) performs no network call and returns it. *)
Theorem getAccessToken_cache_boundary (w : World) :
  let r := Auth.getAccessToken P w in
  ((exists tok, cachedToken w = Some tok /\ expiresAt tok > clock w + 60000)
   <-> ((exists tok, cachedToken w = Some tok /\ fst r = Returned (accessToken tok))
        /\ fetch_count (trace (snd r)) = fetch_count (trace w)))
  /\ (forall tok, cachedToken w = Some tok -> expiresAt tok = clock w + 59000 ->
        trace (snd r) = (trace w ++ [EvGetAccessToken; EvFetch (token_request (env w))])%list)
  /\ (forall tok, cachedToken w = Some tok -> expiresAt tok = clock w + 61000 ->
        r = (Returned (accessToken tok), add_event EvGetAccessToken w))
  /\ (forall v t2,
        fst r = Returned v ->
        cache_valid (cachedToken (snd r)) t2 = true ->
        let r2 := Auth.getAccessToken P (set_clock t2 (snd r)) in
        fst r2 = Returned v
        /\ fetch_count (trace (snd r2)) = fetch_count (trace (snd r))).
Proof.
  intros r. subst r. refine (conj _ (conj _ (conj _ _))).
  - split.
    + intros (tok & Hc & Hgt). rewrite (getAccessToken_hit P w tok Hc Hgt). simpl.
      split; [eauto|]. rewrite fetch_count_app. unfold fetch_count. simpl. lia.
    + intros [_ Hn]. apply cache_valid_spec.
      destruct (cache_valid (cachedToken w) (clock w)) eqn:Hv; [reflexivity|].
      rewrite getAccessToken_miss_trace in Hn by exact Hv.
      rewrite fetch_count_app in Hn. unfold fetch_count in Hn. simpl in Hn. lia.
  - intros tok Hc He. apply getAccessToken_miss_trace.
    unfold cache_valid. rewrite Hc, Z.gtb_ltb. apply Z.ltb_ge. lia.
  - intros tok Hc He. apply getAccessToken_hit; [exact Hc | lia].
  - intros v t2 Hv Hvalid. simpl.
    destruct (getAccessToken_returns_cached w v Hv) as (tok & Hc & Hacc).
    apply cache_valid_spec in Hvalid as (tok' & Hc' & Hgt).
    rewrite (getAccessToken_hit P (set_clock t2 _) tok').
    + simpl. split; [congruence|]. rewrite fetch_count_app. unfold fetch_count. simpl. lia.
    + exact Hc'.
    + exact Hgt.
Qed.

End TokenCache.

Lemma fetch_count_snoc (tr : list Event) (e : Event) :
  is_fetch e = false -> fetch_count (tr ++ [e]) = fetch_count tr.
Proof.
  intros He. rewrite fetch_count_app. unfold fetch_count at 2. simpl.
  rewrite He. simpl. lia.
Qed.

(** C10.  When the refresh exchange answers with a non-success status,
    [getAccessToken] (either revision) throws, and the cached token is
    exactly what it was before the call: a previously cached token, even a
    near-expiry one, is neither cleared nor replaced. *)
Theorem refresh_failure_keeps_cache (P : Platform) (w : World) (r : HttpResponse) :
  cache_valid (cachedToken w) (clock w) = false ->
  completion (fetch_reply P (fetch_count (trace w)) (token_request (env w))) = Returned r ->
  ok r = false ->
  throws_leaving_state (Auth.getAccessToken P) w r
  /\ throws_leaving_state (AuthRole.getAccessToken P) w r.
Proof.
  intros Hv Hr Hok.
  assert (forall c, cachedToken w = Some c -> (expiresAt c >? clock w + 60000) = false) as Hc.
  { intros c Hc. unfold cache_valid in Hv. rewrite Hc in Hv. exact Hv. }
  split; unfold throws_leaving_state.
  - unfold Auth.getAccessToken, Auth.refreshToken, fetch, response_text. run_monad.
    destruct (cachedToken w) as [c|] eqn:Hcw; [rewrite (Hc c eq_refl)|];
      simpl; rewrite fetch_count_snoc by reflexivity; rewrite Hr; simpl;
      rewrite Hok; simpl;
      destruct (body_text r) as [txt|ex] eqn:Hb; simpl;
      do 2 eexists; (split; [reflexivity|]); simpl;
      repeat split; try assumption; try congruence.
  - unfold AuthRole.getAccessToken, AuthRole.refreshToken, fetch, response_text. run_monad.
    destruct (cachedToken w) as [c|] eqn:Hcw; [rewrite (Hc c eq_refl)|];
      simpl; rewrite fetch_count_snoc by reflexivity; rewrite Hr; simpl;
      rewrite Hok; simpl;
      destruct (body_text r) as [txt|ex] eqn:Hb; simpl;
      do 2 eexists; (split; [reflexivity|]); simpl;
      repeat split; try assumption; try congruence.
Qed.

(** ** Rate limiter *)

Lemma timer_count_snoc (tr : list Event) (e : Event) :
  is_timer e = false -> timer_count (tr ++ [e]) = timer_count tr.
Proof.
  intros He. rewrite timer_count_app. unfold timer_count at 2. simpl.
  rewrite He. simpl. lia.
Qed.

Section RateLimiter.

Variable P : Platform.
Variable T : RateTable.

Lemma checkRateLimit_run (apiType : string) (w : World) :
  Client.checkRateLimit P T apiType w = (Returned tt, after_check P T apiType w).
Proof.
  unfold Client.checkRateLimit, after_check, setTimeout_await. run_monad.
  destruct (Client.at_limit _ _); simpl;
    unfold set_requestTimestamps, set_clock, add_event; simpl;
    rewrite lookup_insert_eq, insert_insert_eq; simpl.
  - rewrite timer_count_snoc by reflexivity. rewrite <- app_assoc. reflexivity.
  - reflexivity.
Qed.

End RateLimiter.

Lemma prune_sorted (limit : RateLimit) (now : Z) (log : list Z) :
  StronglySorted Z.le log -> StronglySorted Z.le (Client.prune limit now log).
Proof.
  unfold Client.prune. induction 1 as [|t ts Hs IH Hall]; simpl.
  - constructor.
  - destruct (now - t <? period limit); [|exact IH].
    constructor; [exact IH|].
    apply List.Forall_forall. intros x Hx. apply List.filter_In in Hx as [Hx _].
    rewrite List.Forall_forall in Hall. apply Hall, Hx.
Qed.

Section RateLimiterWindow.

Variable P : Platform.

Lemma at_limit_two (p : Z) (log : list Z) :
  Client.at_limit {| requests := 2; period := p |} log = (2 <=? length log)%nat.
Proof.
  unfold Client.at_limit, Qle_bool; simpl.
  destruct (length log) as [|[|n]]; [reflexivity | reflexivity |].
  apply Z.leb_le. lia.
Qed.

(** Three calls in a row under a limit of two per second. *)
Lemma three_calls_window (T : RateTable) (cat : string) (w : World) (d1 d2 : N) :
  Client.limit_for T cat = {| requests := 2; period := 1000 |} ->
  default [] (requestTimestamps w !! cat) = [] ->
  let w1 := snd (Client.checkRateLimit P T cat w) in
  let w2 := snd (Client.checkRateLimit P T cat (elapse d1 w1)) in
  let w3 := snd (Client.checkRateLimit P T cat (elapse d2 w2)) in
  undelayed w w1 /\ undelayed (elapse d1 w1) w2 /\ clock w3 >= clock w + 1000.
Proof.
  intros Hlimit Hempty w1 w2 w3. subst w1 w2 w3.
  rewrite !checkRateLimit_run. simpl snd.
  assert (after_check P T cat w =
          {| clock := clock w; env := env w; cachedToken := cachedToken w;
             requestTimestamps := <[ cat := [clock w] ]> (requestTimestamps w);
             trace := (trace w ++ [EvCheckRateLimit cat])%list |}) as E1.
  { unfold after_check. rewrite Hlimit, Hempty. reflexivity. }
  rewrite E1. clear E1.
  set (t1 := clock w). set (t2 := t1 + Z.of_N d1).
  set (w1 := elapse d1 _).
  assert (exists log2,
            after_check P T cat w1 =
            {| clock := t2; env := env w; cachedToken := cachedToken w;
               requestTimestamps := <[ cat := (log2 ++ [t2])%list ]> (requestTimestamps w);
               trace := (trace w ++ [EvCheckRateLimit cat; EvCheckRateLimit cat])%list |}
            /\ (log2 = [t1] \/ (log2 = [] /\ t2 - t1 >= 1000))) as (log2 & E2 & Hlog2).
  { unfold after_check. rewrite Hlimit. subst w1. simpl.
    rewrite lookup_insert_eq. simpl. fold t1 t2.
    destruct (Z.ltb_spec (t2 - t1) 1000); rewrite at_limit_two; simpl;
      rewrite insert_insert_eq, <- app_assoc; simpl.
    - exists [t1]. split; [reflexivity | left; reflexivity].
    - exists []. split; [reflexivity | right; split; [reflexivity | lia]]. }
  split; [|split].
  - split; [reflexivity|]. simpl. apply timer_count_snoc. reflexivity.
  - rewrite E2. split; [reflexivity|]. simpl.
    rewrite !timer_count_app. unfold timer_count. simpl. lia.
  - rewrite E2. clear E2. unfold after_check. rewrite Hlimit. simpl.
    rewrite lookup_insert_eq. simpl. set (t3 := t2 + Z.of_N d2).
    assert (t1 <= t2) by (subst t2; lia). assert (t2 <= t3) by (subst t3; lia).
    destruct Hlog2 as [-> | [-> Hge]]; simpl.
    + destruct (Z.ltb_spec (t3 - t1) 1000); destruct (Z.ltb_spec (t3 - t2) 1000);
        rewrite at_limit_two; simpl; lia.
    + destruct (Z.ltb_spec (t3 - t2) 1000); rewrite at_limit_two; simpl; lia.
Qed.

End RateLimiterWindow.

Section RateLimiterLog.

Variable P : Platform.
Variable T : RateTable.

Lemma sorted_snoc (l : list Z) (x : Z) :
  StronglySorted Z.le l -> Forall (fun t => t <= x) l ->
  StronglySorted Z.le (l ++ [x])%list.
Proof.
  induction 1 as [|t ts Hs IH Hall]; simpl; intros Hle.
  - constructor; constructor.
  - inversion Hle; subst. constructor; [apply IH; assumption|].
    apply Forall_app. split; [assumption | constructor; [assumption | constructor]].
Qed.

Lemma sorted_snoc_inv (l : list Z) (x : Z) :
  StronglySorted Z.le (l ++ [x])%list ->
  StronglySorted Z.le l /\ Forall (fun t => t <= x) l.
Proof.
  induction l as [|t ts IH]; simpl; intros Hs.
  - split; constructor.
  - inversion Hs as [|? ? Hs' Hall]; subst.
    destruct (IH Hs') as [Hts Hle]. apply Forall_app in Hall as [Hall Hx].
    split; constructor; try assumption. inversion Hx; assumption.
Qed.

Lemma log_of_after_check (apiType cat : string) (w : World) :
  log_of (after_check P T apiType w) cat =
  if decide (apiType = cat)
  then (Client.prune (Client.limit_for T apiType) (clock w) (log_of w apiType) ++ [clock w])%list
  else log_of w cat.
Proof.
  unfold log_of, after_check.
  destruct (Client.at_limit _ _); simpl; rewrite lookup_insert;
    destruct (decide (apiType = cat)); reflexivity.
Qed.

Lemma clock_after_check (apiType : string) (w : World) :
  clock w <= clock (after_check P T apiType w).
Proof.
  unfold after_check. destruct (Client.at_limit _ _); simpl; lia.
Qed.

(** The ordering of the logs is an invariant of the limiter and of the
    passing of time. *)
Lemma checkRateLimit_keeps_order (apiType : string) (w : World) :
  logs_ordered w -> logs_ordered (snd (Client.checkRateLimit P T apiType w)).
Proof.
  intros Hord cat. rewrite checkRateLimit_run. simpl snd.
  pose proof (clock_after_check apiType w) as Hclk.
  rewrite log_of_after_check.
  destruct (sorted_snoc_inv _ _ (Hord apiType)) as [Hs Hle].
  destruct (decide (apiType = cat)) as [_ | _].
  - apply sorted_snoc.
    + apply sorted_snoc; [apply prune_sorted; exact Hs|].
      apply List.Forall_forall. intros x Hx.
      apply List.filter_In in Hx as [Hx _].
      rewrite List.Forall_forall in Hle. apply Hle, Hx.
    + apply Forall_app. split.
      * apply List.Forall_forall. intros x Hx.
        apply List.filter_In in Hx as [Hx _].
        rewrite List.Forall_forall in Hle. specialize (Hle x Hx). lia.
      * constructor; [exact Hclk | constructor].
  - destruct (sorted_snoc_inv _ _ (Hord cat)) as [Hs' Hle'].
    apply sorted_snoc; [exact Hs'|].
    eapply Forall_impl; [exact Hle'|]. simpl. intros; lia.
Qed.

Lemma elapse_keeps_order (d : N) (w : World) :
  logs_ordered w -> logs_ordered (elapse d w).
Proof.
  intros Hord cat. destruct (sorted_snoc_inv _ _ (Hord cat)) as [Hs Hle].
  unfold elapse, log_of; simpl. apply sorted_snoc; [exact Hs|].
  eapply Forall_impl; [exact Hle|]. simpl. intros; lia.
Qed.

(** When the limiter suspends, the timer is armed with
    [period - (now - log[0])], and control returns no earlier than that. *)
Lemma checkRateLimit_wait (apiType : string) (w : World) (t0 : Z) (rest : list Z) :
  let limit := Client.limit_for T apiType in
  Client.prune limit (clock w) (log_of w apiType) = t0 :: rest ->
  Client.at_limit limit (t0 :: rest) = true ->
  let w' := snd (Client.checkRateLimit P T apiType w) in
  trace w' = (trace w ++ [EvCheckRateLimit apiType;
                          EvSetTimeout (period limit - (clock w - t0))])%list
  /\ clock w' >= clock w + (period limit - (clock w - t0))
  /\ period limit - (clock w - t0) > 0.
Proof.
  intros limit Hlog Hat w'. subst w' limit.
  rewrite checkRateLimit_run. simpl snd. unfold after_check.
  unfold log_of in Hlog. rewrite Hlog, Hat. simpl.
  split; [reflexivity|]. split; [lia|].
  assert (In t0 (Client.prune (Client.limit_for T apiType) (clock w)
                   (default [] (requestTimestamps w !! apiType)))) as Hin
    by (rewrite Hlog; left; reflexivity).
  apply List.filter_In in Hin as [_ Hlt]. apply Z.ltb_lt in Hlt. lia.
Qed.

(** The first entry of an ordered log is its oldest one. *)
Lemma head_is_oldest (limit : RateLimit) (now : Z) (log : list Z) (t0 : Z) (rest : list Z) :
  StronglySorted Z.le log ->
  Client.prune limit now log = t0 :: rest ->
  Forall (fun t => t0 <= t) rest.
Proof.
  intros Hs Hp. apply (prune_sorted limit now) in Hs. rewrite Hp in Hs.
  inversion Hs; assumption.
Qed.

End RateLimiterLog.

(** A call on one category leaves the log of every other category as it
    was, so whether a later call on another category waits does not depend
    on it. *)
Lemma limiter_isolation (P : Platform) (T : RateTable) (cat other : string) (w : World) :
  cat <> other ->
  log_of (snd (Client.checkRateLimit P T cat w)) other = log_of w other.
Proof.
  intros Hne. rewrite checkRateLimit_run. simpl snd. rewrite log_of_after_check.
  destruct (decide (cat = other)); [contradiction | reflexivity].
Qed.

(** C3.  With [maxRequests = 2] and [periodMillis = 1000], three calls in a
    row on a fresh category leave the first and the second undelayed, and
    the third returns no earlier than 1000 ms after the first call's
    timestamp.  Whenever the pruned log is non-empty and its length is at
    least [maxRequests], the timer is armed with
    [periodMillis - (now - oldestTimestamp)], where the oldest timestamp is
    the first entry of the (ordered) log, and control returns no earlier. *)
Theorem rate_limiter_window (P : Platform) (T : RateTable) (cat : string) (w : World) :
  (Client.limit_for T cat = {| requests := 2; period := 1000 |} ->
   log_of w cat = [] ->
   forall d1 d2 : N,
     let w1 := snd (Client.checkRateLimit P T cat w) in
     let w2 := snd (Client.checkRateLimit P T cat (elapse d1 w1)) in
     let w3 := snd (Client.checkRateLimit P T cat (elapse d2 w2)) in
     undelayed w w1 /\ undelayed (elapse d1 w1) w2 /\ clock w3 >= clock w + 1000)
  /\ (forall t0 rest,
        let limit := Client.limit_for T cat in
        Client.prune limit (clock w) (log_of w cat) = t0 :: rest ->
        Client.at_limit limit (t0 :: rest) = true ->
        let w' := snd (Client.checkRateLimit P T cat w) in
        trace w' = (trace w ++ [EvCheckRateLimit cat;
                                EvSetTimeout (period limit - (clock w - t0))])%list
        /\ clock w' >= clock w + (period limit - (clock w - t0))
        /\ (logs_ordered w -> Forall (fun t => t0 <= t) rest)).
Proof.
  split.
  - intros Hlimit Hfresh d1 d2. apply three_calls_window; assumption.
  - intros t0 rest limit Hlog Hat w'.
    destruct (checkRateLimit_wait P T cat w t0 rest Hlog Hat) as (Htr & Hclk & _).
    refine (conj Htr (conj Hclk _)). intros Hord.
    destruct (sorted_snoc_inv _ _ (Hord cat)) as [Hs _].
    exact (head_is_oldest limit (clock w) _ t0 rest Hs Hlog).
Qed.


(** ** Request executor *)

Section Executor.

Variable P : Platform.
Variable getAccessToken : M string.
Variable getSTSCredentials : M Credentials.
Variable T : RateTable.

Abbreviation build := (Client.build_request P getAccessToken getSTSCredentials T).
Abbreviation execute := (Client.spApiRequest P getAccessToken getSTSCredentials T).

(** The executor is the request construction followed by one [fetch], all
    inside the [try] block. *)
Lemma spApiRequest_run (options : SPAPIRequestOptions) (w : World) :
  execute options w =
  match build options w with
  | (Thrown e, w1) => (Returned (Client.failure_of e), w1)
  | (Returned req, w1) =>
      match fetch P req w1 with
      | (Thrown e, w2) => (Returned (Client.failure_of e), w2)
      | (Returned response, w2) =>
          match body_text response with
          | Thrown e => (Returned (Client.failure_of e), w2)
          | Returned text => (Returned (Client.envelope_of P response text), w2)
          end
      end
  end.
Proof.
  unfold Client.spApiRequest, response_text, try_catch, bind, ret, lift.
  destruct (build options w) as [[req|e] w1]; [|reflexivity].
  destruct (fetch P req w1) as [[response|e] w2]; [|reflexivity].
  destruct (body_text response); reflexivity.
Qed.

End Executor.

(** C1.  [spApiRequest] never throws.  A response with a non-2xx status
    yields [{success: false, error: body text or "HTTP <status>" when the
    body is empty, statusCode: status}]; a rejected [fetch] yields
    [{success: false, error: message}] with no [statusCode]; a 2xx response
    yields [{success: true, data: parsed body or nothing when it is not
    JSON, statusCode: status}].  An exception raised while the request is
    being prepared is turned into the same failure envelope. *)
Theorem spApiRequest_never_throws (P : Platform) (getAccessToken : M string)
    (getSTSCredentials : M Credentials) (T : RateTable)
    (options : SPAPIRequestOptions) (w : World) :
  let run := Client.spApiRequest P getAccessToken getSTSCredentials T options w in
  (exists envelope, fst run = Returned envelope)
  /\ (forall req w1,
        Client.build_request P getAccessToken getSTSCredentials T options w
          = (Returned req, w1) ->
        match completion (fetch_reply P (fetch_count (trace w1)) req) with
        | Thrown (JsError message) =>
            fst run = Returned {| success := false; data := None;
                                  error := Some message; statusCode := None |}
        | Thrown JsNonError =>
            fst run = Returned {| success := false; data := None;
                                  error := Some "Unknown error"; statusCode := None |}
        | Returned response =>
            forall text, body_text response = Returned text ->
              if ok response then
                fst run = Returned {| success := true;
                                      data := JSON_parse P text;
                                      error := None;
                                      statusCode := Some (status response) |}
              else
                fst run = Returned {| success := false;
                                      data := None;
                                      error := Some (if String.eqb text ""
                                                     then "HTTP " +:+ pretty (status response)
                                                     else text);
                                      statusCode := Some (status response) |}
        end)
  /\ (forall e w1,
        Client.build_request P getAccessToken getSTSCredentials T options w
          = (Thrown e, w1) ->
        exists message,
          fst run = Returned {| success := false; data := None;
                                error := Some message; statusCode := None |}).
Proof.
  intros run. subst run. rewrite spApiRequest_run. refine (conj _ (conj _ _)).
  - destruct (Client.build_request _ _ _ _ _ _) as [[req|e] w1]; [|eexists; reflexivity].
    destruct (fetch P req w1) as [[response|e] w2]; [|eexists; reflexivity].
    destruct (body_text response); eexists; reflexivity.
  - intros req w1 ->. unfold fetch.
    destruct (completion _) as [response|[message|]]; simpl; try reflexivity.
    intros text ->. unfold Client.envelope_of.
    destruct (ok response); reflexivity.
  - intros e w1 ->. simpl. unfold Client.failure_of. eexists. reflexivity.
Qed.

Section ExecutorOrder.

Variable P : Platform.
Variable getAccessToken : M string.
Variable getSTSCredentials : M Credentials.
Variable T : RateTable.

(** The request construction, once both imported functions have returned:
    the limiter is entered first, then the request is signed with whatever
    credentials came back, whatever they are. *)
Lemma build_request_after_auth (options : SPAPIRequestOptions)
    (w wa wb : World) (tok : string) (creds : Credentials) :
  getAccessToken w = (Returned tok, wa) ->
  getSTSCredentials wa = (Returned creds, wb) ->
  let wc := after_check P T (Client.apiType_of (opt_path options)) wb in
  exists out : Outcome FetchRequest,
    (exists e,
       Client.build_request P getAccessToken getSTSCredentials T options w = (Thrown e, wc)
       /\ out = Thrown e)
    \/ (exists ro,
          Client.build_request P getAccessToken getSTSCredentials T options w
            = (out, add_event (EvSign ro creds) wc)
          /\ match out with
             | Returned req =>
                 exists signed, aws4_sign P ro creds = Returned signed
                                /\ f_headers req = a_headers signed
             | Thrown _ => True
             end).
Proof.
  intros Ha Hb wc. subst wc.
  unfold Client.build_request, bind, process_env, gets, lift, emit, modify, ret.
  rewrite Ha. cbv beta iota. rewrite Hb. cbv beta iota.
  rewrite checkRateLimit_run. cbv beta iota.
  assert (env (after_check P T (Client.apiType_of (opt_path options)) wb) = env wb) as Henv.
  { unfold after_check. destruct (Client.at_limit _ _); reflexivity. }
  destruct (URL_host P _) as [host|e] eqn:Hhost.
  - match goal with |- context [aws4_sign P ?ro creds] =>
      destruct (aws4_sign P ro creds) as [signed|e] eqn:Hsign;
      eexists; right; exists ro; (split; [reflexivity|]) end.
    + exists signed. split; [exact Hsign | reflexivity].
    + exact I.
  - exists (Thrown e). left. exists e. split; reflexivity.
Qed.

End ExecutorOrder.

Section ExecutorTrace.

Variable P : Platform.
Variable T : RateTable.

Lemma after_check_trace (apiType : string) (w : World) :
  exists t, trace (after_check P T apiType w)
            = (trace w ++ EvCheckRateLimit apiType :: t)%list
            /\ forallb after_gate t = true.
Proof.
  unfold after_check. destruct (Client.at_limit _ _); simpl.
  - eexists. split; reflexivity.
  - exists []. split; reflexivity.
Qed.

(** Whatever the imported functions are, once both have returned the rest
    of the run starts with the limiter and continues with timers, the
    signature and the network call only. *)
Lemma spApiRequest_trace_after_auth (getAccessToken : M string)
    (getSTSCredentials : M Credentials) (options : SPAPIRequestOptions)
    (w wa wb : World) (tok : string) (creds : Credentials) :
  getAccessToken w = (Returned tok, wa) ->
  getSTSCredentials wa = (Returned creds, wb) ->
  exists tail,
    trace (snd (Client.spApiRequest P getAccessToken getSTSCredentials T options w))
    = (trace wb ++ EvCheckRateLimit (Client.apiType_of (opt_path options)) :: tail)%list
    /\ forallb after_gate tail = true.
Proof.
  intros Ha Hb. rewrite spApiRequest_run.
  destruct (after_check_trace (Client.apiType_of (opt_path options)) wb) as (t & Ht & Hg).
  destruct (build_request_after_auth P getAccessToken getSTSCredentials T
              options w wa wb tok creds Ha Hb) as (out & [(e & Hbuild & _) | (ro & Hbuild & _)]);
    rewrite Hbuild; clear Hbuild.
  - exists t. split; [exact Ht | exact Hg].
  - destruct out as [req|e]; simpl.
    + unfold fetch. destruct (completion _) as [resp|e]; simpl;
        [destruct (body_text resp); simpl|]; rewrite Ht, <- !app_assoc; simpl;
        eexists; (split; [reflexivity|]); rewrite forallb_app, Hg; reflexivity.
    + rewrite Ht, <- app_assoc. simpl.
      eexists; (split; [reflexivity|]); rewrite forallb_app, Hg; reflexivity.
Qed.

Lemma getAccessToken_trace (w : World) :
  exists m, (m = [] \/ m = [EvFetch (token_request (env w))])
            /\ trace (snd (Auth.getAccessToken P w))
               = (trace w ++ EvGetAccessToken :: m)%list.
Proof.
  destruct (cache_valid (cachedToken w) (clock w)) eqn:Hv.
  - apply cache_valid_spec in Hv as (tok & Hc & Hgt).
    rewrite (getAccessToken_hit P w tok Hc Hgt). exists []. split; [left|]; reflexivity.
  - rewrite getAccessToken_miss_trace by exact Hv.
    eexists. split; [right|]; reflexivity.
Qed.

Lemma getSTSCredentials_run (w : World) :
  exists creds, Auth.getSTSCredentials w = (Returned creds, add_event EvGetSTSCredentials w).
Proof.
  unfold Auth.getSTSCredentials. run_monad.
  destruct (truthy _ && truthy _); eexists; reflexivity.
Qed.

End ExecutorTrace.

(** C4 (as the code has it).  In every execution of the executor the access
    token is obtained first; if that fails nothing else happens.  Otherwise
    the signing credentials are obtained next, and only then is the limiter
    called, for the category derived from the first path segment; whatever
    follows the limiter is its timer, the signature and the network call.
    The limiter's gate therefore comes after the token fetch and before the
    call to the target API.  The first part holds whatever the two imported
    functions are; the second spells the trace out for the auth module the
    client is shipped with. *)
Theorem executor_step_order (P : Platform) (T : RateTable)
    (options : SPAPIRequestOptions) (w : World) :
  let cat := Client.apiType_of (opt_path options) in
  (forall (getAccessToken : M string) (getSTSCredentials : M Credentials),
     let w' := snd (Client.spApiRequest P getAccessToken getSTSCredentials T options w) in
     match getAccessToken w with
     | (Thrown _, wa) => trace w' = trace wa
     | (Returned _, wa) =>
         match getSTSCredentials wa with
         | (Thrown _, wb) => trace w' = trace wb
         | (Returned _, wb) =>
             exists tail,
               trace w' = (trace wb ++ EvCheckRateLimit cat :: tail)%list
               /\ forallb after_gate tail = true
         end
     end)
  /\ (let w' := snd (Client.spApiRequest P (Auth.getAccessToken P) Auth.getSTSCredentials
                        T options w) in
      exists m, (m = [] \/ m = [EvFetch (token_request (env w))])
        /\ match fst (Auth.getAccessToken P w) with
           | Thrown _ => trace w' = (trace w ++ EvGetAccessToken :: m)%list
           | Returned _ =>
               exists tail,
                 trace w' = (trace w ++ EvGetAccessToken :: m ++
                               EvGetSTSCredentials :: EvCheckRateLimit cat :: tail)%list
                 /\ forallb after_gate tail = true
           end).
Proof.
  intros cat. subst cat. split.
  - intros getAccessToken getSTSCredentials w'. subst w'.
    destruct (getAccessToken w) as [[tok|e] wa] eqn:Ha.
    + destruct (getSTSCredentials wa) as [[creds|e] wb] eqn:Hb.
      * exact (spApiRequest_trace_after_auth P T _ _ options w wa wb tok creds Ha Hb).
      * rewrite spApiRequest_run. unfold Client.build_request, bind.
        rewrite Ha, Hb. reflexivity.
    + rewrite spApiRequest_run. unfold Client.build_request, bind.
      rewrite Ha. reflexivity.
  - intros w'. subst w'.
    destruct (getAccessToken_trace P w) as (m & Hm & Htr). exists m. split; [exact Hm|].
    destruct (Auth.getAccessToken P w) as [[tok|e] wa] eqn:Ha; simpl in *.
    + destruct (getSTSCredentials_run wa) as (creds & Hb).
      destruct (spApiRequest_trace_after_auth P T _ _ options w wa _ tok creds Ha Hb)
        as (tail & Htail & Hg).
      exists tail. split; [|exact Hg]. rewrite Htail. simpl. rewrite Htr.
      rewrite <- !app_assoc. reflexivity.
    + rewrite spApiRequest_run. unfold Client.build_request, bind. rewrite Ha. simpl.
      exact Htr.
Qed.

(** ** Signing credentials *)

Section Credentials.

Variable P : Platform.

(** The token-only resolver is total: the static pair when both keys are
    set, the dummy pair otherwise, and never a network call. *)
Lemma getSTSCredentials_token_only (w : World) :
  Auth.getSTSCredentials w =
  (Returned (if Auth.hasAWSCredentials (env w)
             then {| accessKeyId := env w !! "AWS_ACCESS_KEY_ID";
                     secretAccessKey := env w !! "AWS_SECRET_ACCESS_KEY";
                     sessionToken := None |}
             else dummy_credentials),
   add_event EvGetSTSCredentials w).
Proof.
  unfold Auth.getSTSCredentials, Auth.hasAWSCredentials. run_monad.
  destruct (truthy _ && truthy _); reflexivity.
Qed.

Lemma getAccessToken_env (w : World) :
  env (snd (Auth.getAccessToken P w)) = env w.
Proof.
  unfold Auth.getAccessToken, Auth.refreshToken, fetch, response_json_token, response_text.
  run_monad.
  destruct (cachedToken w) as [c|]; [destruct (_ >? _); [reflexivity|]|];
    simpl; destruct (completion _) as [r|]; simpl; try reflexivity;
    destruct (negb (ok r)); simpl; destruct (body_text r) as [txt|]; simpl;
    try reflexivity; destruct (response_json P txt); reflexivity.
Qed.

(** The role-based resolver without a configured role (or with the
    placeholder): the static pair is read and nothing is sent. *)
Lemma getSTSCredentials_role_unset (w : World) :
  truthy (env w !! "AWS_ROLE_ARN") = false
  \/ env w !! "AWS_ROLE_ARN" = Some AuthRole.placeholder_role ->
  AuthRole.getSTSCredentials P w =
  (Returned (AuthRole.iam_user (env w !! "AWS_ACCESS_KEY_ID")
                               (env w !! "AWS_SECRET_ACCESS_KEY")),
   add_event EvGetSTSCredentials w).
Proof.
  intros H. unfold AuthRole.getSTSCredentials. run_monad.
  destruct H as [-> | ->]; simpl; reflexivity.
Qed.

(** A role is configured and a valid token is cached: the exchange is the
    next network call, and its completion decides the result. *)
Lemma getSTSCredentials_role_exchange (w : World) (role : string) :
  env w !! "AWS_ROLE_ARN" = Some role ->
  role <> "" -> role <> AuthRole.placeholder_role ->
  cache_valid (cachedToken w) (clock w) = true ->
  let k := env w !! "AWS_ACCESS_KEY_ID" in
  let s := env w !! "AWS_SECRET_ACCESS_KEY" in
  fst (AuthRole.getSTSCredentials P w) =
  match completion (fetch_reply P (fetch_count (trace w))
                      (AuthRole.sts_request (Some role))) with
  | Thrown e => Thrown e
  | Returned r =>
      if negb (ok r) then Returned (AuthRole.iam_user k s)
      else match body_text r with
           | Thrown e => Thrown e
           | Returned xml =>
               Returned
                 {| accessKeyId :=
                      js_or (regex_capture P "<AccessKeyId>(.+?)<\/AccessKeyId>" xml) k;
                    secretAccessKey :=
                      js_or (regex_capture P "<SecretAccessKey>(.+?)<\/SecretAccessKey>" xml) s;
                    sessionToken :=
                      regex_capture P "<SessionToken>(.+?)<\/SessionToken>" xml |}
           end
  end.
Proof.
  intros Hrole Hne Hnp Hvalid k s. subst k s.
  unfold cache_valid in Hvalid.
  destruct (cachedToken w) as [c|] eqn:Hc; [|discriminate].
  unfold AuthRole.getSTSCredentials, AuthRole.getAccessToken, fetch, response_text.
  run_monad. rewrite Hrole. simpl.
  assert ((role =? "")%string = false) as -> by (apply String.eqb_neq; exact Hne).
  rewrite bool_decide_eq_false_2 by congruence. simpl.
  rewrite Hc, Hvalid. simpl.
  rewrite !fetch_count_snoc by reflexivity.
  destruct (completion _) as [r|e]; simpl; [|reflexivity].
  destruct (negb (ok r)); simpl; [reflexivity|].
  destruct (body_text r); reflexivity.
Qed.

End Credentials.

(** C8, where the code departs from it.  In the role-based revision, when a
    role is configured and the [AssumeRole] request is rejected at transport
    level, [getSTSCredentials] throws that exception instead of falling back
    to the static key pair (the fallback exists only for a response with a
    non-success status). *)
Theorem sts_exchange_failure_propagates (P : Platform) (w : World)
    (role : string) (e : JsExn) :
  env w !! "AWS_ROLE_ARN" = Some role ->
  role <> "" -> role <> AuthRole.placeholder_role ->
  cache_valid (cachedToken w) (clock w) = true ->
  completion (fetch_reply P (fetch_count (trace w))
                (AuthRole.sts_request (Some role))) = Thrown e ->
  fst (AuthRole.getSTSCredentials P w) = Thrown e.
Proof.
  intros Hrole Hne Hnp Hvalid Hfail.
  rewrite (getSTSCredentials_role_exchange P w role Hrole Hne Hnp Hvalid).
  rewrite Hfail. reflexivity.
Qed.

(** C5, where the code departs from it.  With no static key pair configured
    the resolver returns the dummy credentials, and the executor still
    calls the signer with them and sends the signer's headers: signing is
    not skipped. *)
Theorem signing_is_unconditional (P : Platform) (T : RateTable)
    (options : SPAPIRequestOptions) (w w1 : World) (req : FetchRequest) :
  Auth.hasAWSCredentials (env w) = false ->
  Client.build_request P (Auth.getAccessToken P) Auth.getSTSCredentials T options w
    = (Returned req, w1) ->
  exists ro signed,
    In (EvSign ro dummy_credentials) (trace w1)
    /\ aws4_sign P ro dummy_credentials = Returned signed
    /\ f_headers req = a_headers signed.
Proof.
  intros Hno Hbuild.
  destruct (Auth.getAccessToken P w) as [[tok|e] wa] eqn:Ha.
  - pose proof (getAccessToken_env P w) as Henv. rewrite Ha in Henv. simpl in Henv.
    pose proof (getSTSCredentials_token_only wa) as Hb.
    rewrite Henv, Hno in Hb.
    destruct (build_request_after_auth P _ _ T options w wa _ tok _ Ha Hb)
      as (out & [(e & Hb1 & _) | (ro & Hb1 & Hout)]); rewrite Hbuild in Hb1.
    + discriminate Hb1.
    + injection Hb1 as <- ->. destruct Hout as (signed & Hs & Hh).
      exists ro, signed. split; [|split; assumption].
      simpl. apply in_or_app. right. left. reflexivity.
  - exfalso. revert Hbuild. unfold Client.build_request, bind. rewrite Ha. discriminate.
Qed.

Example not_found_envelope :
  fst (Scenario.execute (Scenario.platform (Scenario.responds 404 Scenario.not_found_body))
         Scenario.get_orders Scenario.warm)
  = Returned {| success := false; data := None;
                error := Some Scenario.not_found_body; statusCode := Some 404 |}.
Proof. vm_compute. reflexivity. Qed.

Example network_failure_envelope :
  fst (Scenario.execute (Scenario.platform Scenario.network_down)
         Scenario.get_orders Scenario.warm)
  = Returned {| success := false; data := None;
                error := Some "fetch failed"; statusCode := None |}.
Proof. vm_compute. reflexivity. Qed.

Example empty_body_error :
  fst (Scenario.execute (Scenario.platform (Scenario.responds 503 ""))
         Scenario.get_orders Scenario.warm)
  = Returned {| success := false; data := None;
                error := Some "HTTP 503"; statusCode := Some 503 |}.
Proof. vm_compute. reflexivity. Qed.

Example first_segment_is_category :
  Client.apiType_of "/orders/v0/orders" = "orders"
  /\ Client.apiType_of "/fba/inventory/v1/summaries" = "fba"
  /\ Client.apiType_of "/" = "default"
  /\ Client.apiType_of "reports" = "default".
Proof. vm_compute. repeat split. Qed.

(** ** The theorems at concrete inputs *)

(** C1 at a 404 reply with the body [{"errors":[{"message":"not found"}]}]. *)
Lemma spApiRequest_never_throws_witness :
  fst (Scenario.execute (Scenario.platform (Scenario.responds 404 Scenario.not_found_body))
         Scenario.get_orders Scenario.warm)
  = Returned {| success := false; data := None;
                error := Some Scenario.not_found_body; statusCode := Some 404 |}.
Proof.
  pose proof (spApiRequest_never_throws
                (Scenario.platform (Scenario.responds 404 Scenario.not_found_body))
                (Auth.getAccessToken
                   (Scenario.platform (Scenario.responds 404 Scenario.not_found_body)))
                Auth.getSTSCredentials Client.RATE_LIMITS
                Scenario.get_orders Scenario.warm) as (_ & H & _).
  specialize (H _ _ ltac:(vm_compute; reflexivity)).
  specialize (H Scenario.not_found_body eq_refl).
  exact H.
Defined.

(** C2 at a token expiring 61 s from now: it is returned as it is. *)
Lemma getAccessToken_cache_boundary_witness :
  Auth.getAccessToken (Scenario.platform Scenario.network_down)
    (Scenario.world Scenario.lwa_env (Scenario.cached 61000) ∅)
  = (Returned "Atza|cached",
     add_event EvGetAccessToken (Scenario.world Scenario.lwa_env (Scenario.cached 61000) ∅)).
Proof.
  pose proof (getAccessToken_cache_boundary (Scenario.platform Scenario.network_down)
                (Scenario.world Scenario.lwa_env (Scenario.cached 61000) ∅))
    as (_ & _ & H & _).
  exact (H {| accessToken := "Atza|cached"; expiresAt := Scenario.now0 + 61000 |}
           eq_refl eq_refl).
Defined.

(** C3 on the shipped inventory limit, the calls 10 ms apart. *)
Lemma rate_limiter_window_witness :
  let P := Scenario.platform Scenario.network_down in
  let w1 := snd (Client.checkRateLimit P Client.RATE_LIMITS "inventory" Scenario.warm) in
  let w2 := snd (Client.checkRateLimit P Client.RATE_LIMITS "inventory" (elapse 10 w1)) in
  let w3 := snd (Client.checkRateLimit P Client.RATE_LIMITS "inventory" (elapse 10 w2)) in
  undelayed Scenario.warm w1 /\ undelayed (elapse 10 w1) w2
  /\ clock w3 >= clock Scenario.warm + 1000.
Proof.
  exact (proj1 (rate_limiter_window (Scenario.platform Scenario.network_down)
                  Client.RATE_LIMITS "inventory" Scenario.warm)
               eq_refl eq_refl 10%N 10%N).
Defined.

(** C10 at a near-expiry token and a 400 reply from the identity provider. *)
Lemma refresh_failure_keeps_cache_witness :
  throws_leaving_state
    (Auth.getAccessToken (Scenario.platform (Scenario.responds 400 "invalid_grant")))
    Scenario.stale {| status := 400; body_text := Returned "invalid_grant" |}
  /\ throws_leaving_state
       (AuthRole.getAccessToken (Scenario.platform (Scenario.responds 400 "invalid_grant")))
       Scenario.stale {| status := 400; body_text := Returned "invalid_grant" |}.
Proof.
  apply (refresh_failure_keeps_cache
           (Scenario.platform (Scenario.responds 400 "invalid_grant")) Scenario.stale);
    reflexivity.
Defined.

(** C9 with REFRESH_TOKEN and SELLER_ID unset (role-based key list). *)
Lemma validateCredentials_reports_missing_witness :
  AuthRole.validateCredentials Scenario.env_missing_two
  = {| valid := false; missing := ["REFRESH_TOKEN"; "SELLER_ID"] |}.
Proof.
  destruct (validateCredentials_reports_missing Scenario.env_missing_two)
    as [_ (_ & _ & _ & _ & H)].
  apply H. intros k Hk. unfold present.
  repeat (destruct Hk as [<- | Hk];
          [vm_compute; split; [try discriminate; intros _; split; discriminate
                              | first [reflexivity | intros [A B]; congruence]] |]).
  destruct Hk.
Defined.

(** ** Where the code departs from the description *)

(** C4 fails: on a plain order listing the token is fetched first (position
    0 of the trace) and the limiter is entered third (position 2). *)
Lemma gate_does_not_precede_token :
  ~ gate_before_token
      (trace (snd (Scenario.execute (Scenario.platform (Scenario.responds 200 "{}"))
                     Scenario.get_orders Scenario.warm))).
Proof.
  intros H. specialize (H 2%nat 0%nat "orders" eq_refl eq_refl). lia.
Qed.


Example saturated_third_call :
  let w' := snd (Client.checkRateLimit (Scenario.platform Scenario.network_down)
                   Client.RATE_LIMITS "inventory" Scenario.saturated) in
  trace w' = [EvCheckRateLimit "inventory"; EvSetTimeout 500]
  /\ clock w' = Scenario.now0 + 500
  /\ log_of w' "inventory" = [Scenario.now0 - 500; Scenario.now0 - 400; Scenario.now0].
Proof. vm_compute. repeat split. Qed.

(** C6, where the code departs from it.  The shipped entry for reports is
    [{requests: 0.0167, period: 1000}]: the window is one second, so a
    second reports call made one second or more after the first is not
    delayed, however soon within the minute it comes. *)
Theorem reports_limit_is_per_second (P : Platform) (w : World) (gap : N) :
  log_of w "reports" = [] ->
  (1000 <= gap)%N ->
  let w1 := snd (Client.checkRateLimit P Client.RATE_LIMITS "reports" w) in
  let w2 := snd (Client.checkRateLimit P Client.RATE_LIMITS "reports" (elapse gap w1)) in
  undelayed w w1
  /\ undelayed (elapse gap w1) w2
  /\ clock w2 = clock w + Z.of_N gap
  /\ Client.limit_for Client.RATE_LIMITS "reports" = {| requests := 167 # 10000; period := 1000 |}.
Proof.
  intros Hfresh Hgap w1 w2. subst w1 w2. rewrite !checkRateLimit_run. simpl snd.
  assert (after_check P Client.RATE_LIMITS "reports" w =
          {| clock := clock w; env := env w; cachedToken := cachedToken w;
             requestTimestamps := <[ "reports" := [clock w] ]> (requestTimestamps w);
             trace := (trace w ++ [EvCheckRateLimit "reports"])%list |}) as E1.
  { unfold after_check. unfold log_of in Hfresh. rewrite Hfresh. reflexivity. }
  rewrite E1. clear E1.
  assert (forall tr, after_check P Client.RATE_LIMITS "reports"
            (elapse gap {| clock := clock w; env := env w; cachedToken := cachedToken w;
                           requestTimestamps := <[ "reports" := [clock w] ]> (requestTimestamps w);
                           trace := tr |})
          = {| clock := clock w + Z.of_N gap; env := env w; cachedToken := cachedToken w;
               requestTimestamps := <[ "reports" := [clock w + Z.of_N gap] ]> (requestTimestamps w);
               trace := (tr ++ [EvCheckRateLimit "reports"])%list |}) as E2.
  { intros tr. unfold after_check, elapse. simpl. rewrite lookup_insert_eq. simpl.
    change (period (Client.limit_for Client.RATE_LIMITS "reports")) with 1000.
    destruct (Z.ltb_spec (clock w + Z.of_N gap - clock w) 1000); [lia|].
    simpl. change (Client.at_limit _ []) with false. simpl.
    rewrite insert_insert_eq. reflexivity. }
  rewrite E2. unfold undelayed. simpl.
  repeat split; try reflexivity; apply timer_count_snoc; reflexivity.
Qed.

(** Two reports calls one second apart. *)
Lemma reports_limit_is_per_second_witness :
  let P := Scenario.platform Scenario.network_down in
  let w1 := snd (Client.checkRateLimit P Client.RATE_LIMITS "reports" Scenario.warm) in
  let w2 := snd (Client.checkRateLimit P Client.RATE_LIMITS "reports" (elapse 1000 w1)) in
  undelayed Scenario.warm w1
  /\ undelayed (elapse 1000 w1) w2
  /\ clock w2 = clock Scenario.warm + 1000
  /\ Client.limit_for Client.RATE_LIMITS "reports" = {| requests := 167 # 10000; period := 1000 |}.
Proof.
  apply (reports_limit_is_per_second (Scenario.platform Scenario.network_down)
           Scenario.warm 1000%N); [reflexivity | vm_compute; discriminate].
Defined.

(** C5 at the token-only configuration: the stub signer's header is sent. *)
Lemma signing_is_unconditional_witness :
  exists ro signed,
    In (EvSign ro dummy_credentials)
       (trace (snd (Client.build_request (Scenario.platform (Scenario.responds 200 "{}"))
                      (Auth.getAccessToken (Scenario.platform (Scenario.responds 200 "{}")))
                      Auth.getSTSCredentials Client.RATE_LIMITS
                      Scenario.get_orders Scenario.warm)))
    /\ aws4_sign (Scenario.platform (Scenario.responds 200 "{}")) ro dummy_credentials
       = Returned signed
    /\ a_headers signed !! "Authorization" = Some "AWS4-HMAC-SHA256 Credential=".
Proof.
  destruct (signing_is_unconditional (Scenario.platform (Scenario.responds 200 "{}"))
              Client.RATE_LIMITS Scenario.get_orders Scenario.warm _ _
              eq_refl ltac:(vm_compute; reflexivity)) as (ro & signed & Hin & Hs & Hh).
  exists ro, signed. split; [exact Hin|]. split; [exact Hs|].
  rewrite <- Hh. vm_compute. reflexivity.
Defined.

(** C8 at a configured role with the network down. *)
Lemma sts_exchange_failure_propagates_witness :
  fst (AuthRole.getSTSCredentials (Scenario.platform Scenario.network_down) Scenario.with_role)
  = Thrown (JsError "fetch failed").
Proof.
  apply (sts_exchange_failure_propagates (Scenario.platform Scenario.network_down)
           Scenario.with_role "arn:aws:iam::123456789012:role/SellingPartner");
    try reflexivity; discriminate.
Defined.

(** The same exchange answered with status 403 does fall back to the static
    pair. *)
Example sts_status_failure_falls_back :
  fst (AuthRole.getSTSCredentials (Scenario.platform (Scenario.responds 403 "denied"))
         Scenario.with_role)
  = Returned {| accessKeyId := Some "AKIAEXAMPLE"; secretAccessKey := Some "wJalr";
                sessionToken := None |}.
Proof. vm_compute. reflexivity. Qed.


(** * Further properties of the code *)

(** ** Splitting and joining *)

Lemma append_cons (c : ascii) (s1 s2 : string) :
  String c s1 +:+ s2 = String c (s1 +:+ s2).
Proof. reflexivity. Qed.

Lemma append_nil_l (s : string) : "" +:+ s = s.
Proof. reflexivity. Qed.

Lemma length_append (s1 s2 : string) :
  String.length (s1 +:+ s2) = (String.length s1 + String.length s2)%nat.
Proof.
  induction s1 as [|c s1 IH]; [reflexivity|].
  rewrite append_cons. simpl. rewrite IH. reflexivity.
Qed.

Lemma split_slash_split_on (s : string) :
  Client.split_slash s = Utils.split_on "/" s.
Proof.
  induction s as [|c s IH]; simpl; [reflexivity|]. rewrite IH. reflexivity.
Qed.

Lemma split_on_lacks (sep : ascii) (s : string) :
  lacks sep s = true -> Utils.split_on sep s = [s].
Proof.
  induction s as [|c s IH]; simpl; [reflexivity|].
  intros [Hc Hs]%andb_prop. apply negb_true_iff in Hc. rewrite Hc, (IH Hs). reflexivity.
Qed.

Lemma split_on_app (sep : ascii) (a rest : string) :
  lacks sep a = true ->
  Utils.split_on sep (a +:+ String sep rest) = a :: Utils.split_on sep rest.
Proof.
  induction a as [|c a IH]; simpl.
  - intros _. change (Utils.split_on sep (String sep rest) = "" :: Utils.split_on sep rest).
    simpl. rewrite Ascii.eqb_refl. reflexivity.
  - intros [Hc Ha]%andb_prop. apply negb_true_iff in Hc.
    rewrite Hc, (IH Ha). reflexivity.
Qed.

(** X1.  Joining the pieces of a split with the separator gives the text
    back: what a route handler splits on commas and the client joins with
    commas reaches the query unchanged. *)
Theorem join_split_on (sep : ascii) (s : string) :
  Utils.join (String sep "") (Utils.split_on sep s) = s.
Proof.
  induction s as [|c s IH]; [reflexivity|]. simpl.
  destruct (Ascii.eqb_spec c sep) as [-> | Hne].
  - destruct (Utils.split_on sep s) as [|x xs] eqn:Hs.
    + destruct s; simpl in Hs; [discriminate|].
      destruct (Ascii.eqb a sep); [discriminate|].
      destruct (Utils.split_on sep s); discriminate.
    + change (Utils.join (String sep "") ("" :: x :: xs))
        with ("" +:+ String sep "" +:+ Utils.join (String sep "") (x :: xs)).
      rewrite IH. reflexivity.
  - destruct (Utils.split_on sep s) as [|x xs] eqn:Hs.
    + destruct s; simpl in Hs; [discriminate|].
      destruct (Ascii.eqb a sep); [discriminate|].
      destruct (Utils.split_on sep s); discriminate.
    + destruct xs as [|y ys].
      * simpl in *. rewrite IH. reflexivity.
      * change (Utils.join (String sep "") (String c x :: y :: ys))
          with (String c x +:+ String sep "" +:+ Utils.join (String sep "") (y :: ys)).
        change (Utils.join (String sep "") (x :: y :: ys))
          with (x +:+ String sep "" +:+ Utils.join (String sep "") (y :: ys)) in IH.
        rewrite append_cons, IH. reflexivity.
Qed.

(** X2.  The rate-limit category is the text between the first and the
    second slash of the path, whatever follows; it is ["default"] when that
    text is empty or the path has no slash at all.  (For a path that does
    not begin with a slash this is its second segment.) *)
Theorem apiType_of_second_segment (a seg rest : string) :
  lacks "/" a = true ->
  lacks "/" seg = true ->
  Client.apiType_of (a +:+ "/" +:+ seg) = or_default seg
  /\ Client.apiType_of (a +:+ "/" +:+ seg +:+ "/" +:+ rest) = or_default seg
  /\ Client.apiType_of a = "default".
Proof.
  intros Ha Hseg. unfold Client.apiType_of. rewrite !split_slash_split_on.
  change ("/" +:+ seg) with (String "/" seg).
  change ("/" +:+ seg +:+ "/" +:+ rest) with (String "/" (seg +:+ String "/" rest)).
  rewrite !(split_on_app "/" a) by exact Ha.
  rewrite (split_on_app "/" seg) by exact Hseg.
  rewrite (split_on_lacks "/" a Ha), (split_on_lacks "/" seg Hseg).
  repeat split; reflexivity.
Qed.

Lemma apiType_of_second_segment_witness :
  Client.apiType_of "/orders/v0/orders/902-3159896-1390916" = "orders"
  /\ Client.apiType_of "orders/v0/orders" = "v0".
Proof.
  split.
  - exact (proj1 (proj2 (apiType_of_second_segment "" "orders"
                           "v0/orders/902-3159896-1390916" eq_refl eq_refl))).
  - exact (proj1 (proj2 (apiType_of_second_segment "orders" "v0" "orders" eq_refl eq_refl))).
Defined.

(** X3.  [parseAmazonOrderId] keeps the whole id as [orderNumber] and takes
    as [marketplace] the text before the first dash, or ["Unknown"] when
    that text is empty (an empty id, or one that starts with a dash). *)
Theorem parseAmazonOrderId_prefix (m rest : string) :
  lacks "-" m = true ->
  let unknown_or (s : string) := if String.eqb s "" then "Unknown" else s in
  Utils.parseAmazonOrderId (m +:+ "-" +:+ rest)
    = {| Utils.marketplace := unknown_or m; Utils.orderNumber := m +:+ "-" +:+ rest |}
  /\ Utils.parseAmazonOrderId m
     = {| Utils.marketplace := unknown_or m; Utils.orderNumber := m |}.
Proof.
  intros Hm unknown_or. unfold Utils.parseAmazonOrderId.
  change ("-" +:+ rest) with (String "-" rest).
  rewrite (split_on_app "-" m) by exact Hm.
  rewrite (split_on_lacks "-" m Hm). split; reflexivity.
Qed.

Lemma parseAmazonOrderId_prefix_witness :
  Utils.parseAmazonOrderId "111-1234567-1234567"
  = {| Utils.marketplace := "111"; Utils.orderNumber := "111-1234567-1234567" |}.
Proof.
  exact (proj1 (parseAmazonOrderId_prefix "111" "1234567-1234567" eq_refl)).
Defined.

(** ** Display helpers *)

Lemma length_substring_0 (n : nat) (s : string) :
  String.length (substring 0 n s) = Nat.min n (String.length s).
Proof.
  revert n. induction s as [|c s IH]; intros [|n]; simpl; try reflexivity.
  rewrite IH. reflexivity.
Qed.

Lemma substring_0_all (n : nat) (s : string) :
  (String.length s <= n)%nat -> substring 0 n s = s.
Proof.
  revert n. induction s as [|c s IH]; intros [|n]; simpl; intros H;
    try reflexivity; try lia.
  rewrite IH by lia. reflexivity.
Qed.

Lemma truncate_short (text : string) (maxLength : Z) :
  Z.of_nat (String.length text) <= maxLength -> Utils.truncate text maxLength = text.
Proof.
  intros H. unfold Utils.truncate. apply Z.leb_le in H. rewrite H. reflexivity.
Qed.

Lemma truncate_long (text : string) (maxLength : Z) :
  maxLength < Z.of_nat (String.length text) ->
  Utils.truncate text maxLength
  = Utils.slice_to text (maxLength - 3) +:+ "...".
Proof.
  intros H. unfold Utils.truncate.
  destruct (Z.leb_spec (Z.of_nat (String.length text)) maxLength); [lia | reflexivity].
Qed.

(** X4.  For a bound of at least 3, [truncate] never returns more than
    [maxLength] characters: a text that fits is returned as it is, a longer
    one becomes its first [maxLength - 3] characters followed by three dots,
    exactly [maxLength] long; truncating the result again changes nothing. *)
Theorem truncate_fits (text : string) (maxLength : Z) :
  3 <= maxLength ->
  Z.of_nat (String.length (Utils.truncate text maxLength)) <= maxLength
  /\ (maxLength < Z.of_nat (String.length text) ->
      Utils.truncate text maxLength
        = substring 0 (Z.to_nat (maxLength - 3)) text +:+ "..."
      /\ Z.of_nat (String.length (Utils.truncate text maxLength)) = maxLength)
  /\ Utils.truncate (Utils.truncate text maxLength) maxLength
     = Utils.truncate text maxLength.
Proof.
  intros Hm.
  assert (maxLength < Z.of_nat (String.length text) ->
          Utils.truncate text maxLength
            = substring 0 (Z.to_nat (maxLength - 3)) text +:+ "..."
          /\ Z.of_nat (String.length (Utils.truncate text maxLength)) = maxLength) as Hlong.
  { intros Hl. rewrite truncate_long by exact Hl. unfold Utils.slice_to.
    destruct (Z.ltb_spec (maxLength - 3) 0); [lia|].
    rewrite Z.min_l by lia. split; [reflexivity|].
    rewrite length_append, length_substring_0. simpl. lia. }
  assert (Z.of_nat (String.length (Utils.truncate text maxLength)) <= maxLength) as Hfit.
  { destruct (Z.le_gt_cases (Z.of_nat (String.length text)) maxLength) as [Hs | Hl].
    - rewrite truncate_short by exact Hs. exact Hs.
    - destruct (Hlong ltac:(lia)) as [_ ->]. lia. }
  refine (conj Hfit (conj Hlong _)).
  apply truncate_short. exact Hfit.
Qed.

Lemma truncate_fits_witness :
  Utils.truncate "Wireless Noise Cancelling Headphones" 12 = "Wireless ..."
  /\ Utils.truncate "Headphones" 12 = "Headphones".
Proof.
  split.
  - exact (proj1 (proj1 (proj2 (truncate_fits "Wireless Noise Cancelling Headphones" 12
                                  ltac:(lia))) ltac:(simpl; lia))).
  - apply truncate_short. simpl. lia.
Defined.

(** X5.  For a bound below 3, a text longer than the bound is not cut down
    to it: the slice end [maxLength - 3] is negative and counts from the end
    of the text, so the result has [max (length + maxLength - 3) 0 + 3]
    characters, more than [maxLength]. *)
Theorem truncate_small_bound (text : string) (maxLength : Z) :
  maxLength < 3 ->
  maxLength < Z.of_nat (String.length text) ->
  Z.of_nat (String.length (Utils.truncate text maxLength))
    = Z.max (Z.of_nat (String.length text) + maxLength - 3) 0 + 3
  /\ maxLength < Z.of_nat (String.length (Utils.truncate text maxLength)).
Proof.
  intros Hm Hl. rewrite truncate_long by exact Hl. unfold Utils.slice_to.
  destruct (Z.ltb_spec (maxLength - 3) 0); [|lia].
  rewrite length_append, length_substring_0. simpl. lia.
Qed.

Lemma truncate_small_bound_witness :
  String.length (Utils.truncate "B00EXAMPLE" 2) = 12%nat.
Proof.
  destruct (truncate_small_bound "B00EXAMPLE" 2 ltac:(lia) ltac:(simpl; lia)) as [H _].
  apply Nat2Z.inj. rewrite H. reflexivity.
Defined.

Lemma Qle_bool_false (x y : Q) : Qle_bool x y = false <-> (y < x)%Q.
Proof.
  rewrite <- not_true_iff_false, Qle_bool_iff. split; [apply Qnot_le_lt | apply Qlt_not_le].
Qed.

Lemma Qeq_bool_false (x y : Q) : Qeq_bool x y = false <-> ~ (x == y)%Q.
Proof. rewrite <- not_true_iff_false, Qeq_bool_iff. reflexivity. Qed.

(** X6.  [getInventoryStatus] reports "out" exactly at quantity 0; among
    positive quantities more stock never gives a worse level; and a negative
    quantity is reported as "critical" (not "out") whenever the reorder
    level is not negative. *)
Theorem inventory_status_monotone (reorderLevel : option Q) (q1 q2 : Q) :
  let level q := Utils.status (Utils.getInventoryStatus q reorderLevel) in
  (level q1 = Utils.out <-> (q1 == 0)%Q)
  /\ ((0 < q1)%Q -> (q1 <= q2)%Q -> (severity (level q2) <= severity (level q1))%nat)
  /\ ((q1 < 0)%Q -> (0 <= default 10 reorderLevel)%Q -> level q1 = Utils.critical).
Proof.
  intros level. subst level. unfold Utils.getInventoryStatus.
  set (r := default 10%Q reorderLevel).
  change (r / 2)%Q with (r * (1 # 2))%Q. refine (conj _ (conj _ _)).
  - destruct (Qeq_bool q1 0) eqn:H0; simpl.
    + apply Qeq_bool_iff in H0. tauto.
    + apply Qeq_bool_false in H0.
      destruct (Qle_bool q1 (r * (1 # 2))); simpl; [|destruct (Qle_bool q1 r); simpl];
        split; try discriminate; tauto.
  - intros Hpos Hle.
    assert (Qeq_bool q1 0 = false) as -> by (apply Qeq_bool_false; intros E; lra).
    assert (Qeq_bool q2 0 = false) as -> by (apply Qeq_bool_false; intros E; lra).
    destruct (Qle_bool q2 (r * (1 # 2))) eqn:H2c.
    + apply Qle_bool_iff in H2c.
      assert (Qle_bool q1 (r * (1 # 2)) = true) as -> by (apply Qle_bool_iff; lra).
      simpl. lia.
    + destruct (Qle_bool q2 r) eqn:H2l.
      * apply Qle_bool_iff in H2l.
        destruct (Qle_bool q1 (r * (1 # 2))); simpl; [lia|].
        assert (Qle_bool q1 r = true) as -> by (apply Qle_bool_iff; lra).
        simpl. lia.
      * destruct (Qle_bool q1 (r * (1 # 2))); [simpl; lia|].
        destruct (Qle_bool q1 r); simpl; lia.
  - intros Hneg Hr.
    assert (Qeq_bool q1 0 = false) as -> by (apply Qeq_bool_false; intros E; lra).
    assert (Qle_bool q1 (r * (1 # 2)) = true) as -> by (apply Qle_bool_iff; lra).
    reflexivity.
Qed.

Lemma inventory_status_monotone_witness :
  (severity (Utils.status (Utils.getInventoryStatus 11 None))
   <= severity (Utils.status (Utils.getInventoryStatus 5 None)))%nat
  /\ Utils.status (Utils.getInventoryStatus (-1) None) = Utils.critical.
Proof.
  split.
  - apply (proj1 (proj2 (inventory_status_monotone None 5 11))); reflexivity || discriminate.
  - apply (proj2 (proj2 (inventory_status_monotone None (-1) 0))); reflexivity || discriminate.
Defined.

Lemma div_bounds (a b : Z) :
  0 < b -> b * (a / b) <= a < b * (a / b + 1).
Proof.
  intros Hb. pose proof (Z.mul_div_le a b Hb). pose proof (Z.mul_succ_div_gt a b Hb). lia.
Qed.

(** X7.  [formatRelativeTime] shows the elapsed time in the largest unit
    that has elapsed at least once, with the whole number of such units:
    days from 24 h on, hours from 1 h on, minutes from 1 min on, and
    "Just now" below one minute, for a date in the future and for an
    invalid date. *)
Theorem formatRelativeTime_units (now t : Z) :
  let diff := now - t in
  Utils.formatRelativeTime now None = "Just now"
  /\ (diff < 60000 -> Utils.formatRelativeTime now (Some t) = "Just now")
  /\ (60000 <= diff < 3600000 ->
      Utils.formatRelativeTime now (Some t) = Utils.ago (diff / 60000) "minute")
  /\ (3600000 <= diff < 86400000 ->
      Utils.formatRelativeTime now (Some t) = Utils.ago (diff / 3600000) "hour")
  /\ (86400000 <= diff ->
      Utils.formatRelativeTime now (Some t) = Utils.ago (diff / 86400000) "day").
Proof.
  intros diff. unfold Utils.formatRelativeTime. fold diff.
  assert (diff / 1000 / 60 = diff / 60000) as Em
    by (rewrite Z.div_div by lia; reflexivity).
  assert (diff / 1000 / 60 / 60 = diff / 3600000) as Eh
    by (rewrite !Z.div_div by lia; reflexivity).
  assert (diff / 1000 / 60 / 60 / 24 = diff / 86400000) as Ed
    by (rewrite !Z.div_div by lia; reflexivity).
  rewrite Ed, Eh, Em.
  pose proof (div_bounds diff 60000 ltac:(lia)) as Bm.
  pose proof (div_bounds diff 3600000 ltac:(lia)) as Bh.
  pose proof (div_bounds diff 86400000 ltac:(lia)) as Bd.
  split; [reflexivity|].
  repeat split; intros H;
    destruct (Z.gtb_spec (diff / 86400000) 0);
    destruct (Z.gtb_spec (diff / 3600000) 0);
    destruct (Z.gtb_spec (diff / 60000) 0); try reflexivity; lia.
Qed.

Lemma formatRelativeTime_units_witness :
  Utils.formatRelativeTime 1700000000000 (Some (1700000000000 - 2 * 86400000 - 5000))
  = "2 days ago"
  /\ Utils.formatRelativeTime 1700000000000 (Some (1700000000000 - 3600000)) = "1 hour ago"
  /\ Utils.formatRelativeTime 1700000000000 (Some (1700000000000 + 1)) = "Just now".
Proof.
  split; [|split].
  - rewrite (proj2 (proj2 (proj2 (proj2 (formatRelativeTime_units 1700000000000
               (1700000000000 - 2 * 86400000 - 5000))))) ltac:(lia)). reflexivity.
  - rewrite (proj1 (proj2 (proj2 (proj2 (formatRelativeTime_units 1700000000000
               (1700000000000 - 3600000))))) ltac:(lia)). reflexivity.
  - apply (proj1 (proj2 (formatRelativeTime_units 1700000000000 (1700000000000 + 1)))). lia.
Defined.

(** ** Query strings *)





(** ** The methods of the client class *)

(** X9.  Whatever the arguments, the category under which a method of
    [SPAPIClient] is throttled is one of sixteen first path segments, never
    ["inventory"]: the inventory entry of the shipped table (2 per second)
    is not used by any method, and [getInventorySummaries] is throttled
    under ["fba"], with the default limit, together with the inbound and
    outbound fulfilment methods. *)
Theorem facade_categories_cover (encodeURIComponent : string -> string)
    (this : Facade.SPAPIClient) (op : Facade.Operation) :
  let cat := Client.apiType_of (opt_path (Facade.descriptor encodeURIComponent this op)) in
  In cat facade_categories
  /\ Client.limit_for Client.RATE_LIMITS cat <> {| requests := 2; period := 1000 |}
  /\ (forall a b c d,
        Client.apiType_of
          (opt_path (Facade.descriptor encodeURIComponent this
                       (Facade.getInventorySummaries a b c d))) = "fba"
        /\ Client.limit_for Client.RATE_LIMITS "fba" = {| requests := 10; period := 1000 |}).
Proof.
  intros cat. subst cat.
  assert (forall c, In c facade_categories ->
            Client.limit_for Client.RATE_LIMITS c <> {| requests := 2; period := 1000 |}) as Hlim.
  { intros c Hc. unfold facade_categories in Hc. simpl in Hc.
    repeat (destruct Hc as [<- | Hc]; [vm_compute; discriminate|]). destruct Hc. }
  assert (In (Client.apiType_of (opt_path (Facade.descriptor encodeURIComponent this op)))
             facade_categories) as Hin.
  { unfold facade_categories.
    destruct op.
    all: unfold Facade.descriptor, Facade.GET, Facade.SEND, opt_path, Client.apiType_of.
    all: cbn -[In].
    all: simpl; tauto. }
  split; [exact Hin|]. split; [apply Hlim, Hin|].
  intros a b c d. split; reflexivity.
Qed.

(** X10.  No method of [SPAPIClient] builds a request that has no method
    (hence is sent as GET) and a body, every path begins with a slash, and
    the only methods named are POST and PATCH. *)
Theorem facade_requests_well_formed (encodeURIComponent : string -> string)
    (this : Facade.SPAPIClient) (op : Facade.Operation) :
  let d := Facade.descriptor encodeURIComponent this op in
  (opt_method d = None -> opt_body d = None)
  /\ String.prefix "/" (opt_path d) = true
  /\ (opt_method d = None \/ opt_method d = Some "POST" \/ opt_method d = Some "PATCH")
  /\ opt_headers d = None.
Proof.
  destruct op; simpl; repeat split; try discriminate; try reflexivity; tauto.
Qed.

(** ** More on the executor *)

Section ExecutorShape.

Variable P : Platform.
Variable getAccessToken : M string.
Variable getSTSCredentials : M Credentials.
Variable T : RateTable.

(** Once both imported functions have returned, the rest of a run is the
    limiter, then at most one signature and at most one [fetch]; nothing but
    the clock and the trace changes after the limiter. *)
Lemma spApiRequest_after_auth (options : SPAPIRequestOptions)
    (w wa wb : World) (tok : string) (creds : Credentials) :
  getAccessToken w = (Returned tok, wa) ->
  getSTSCredentials wa = (Returned creds, wb) ->
  let wc := after_check P T (Client.apiType_of (opt_path options)) wb in
  let w' := snd (Client.spApiRequest P getAccessToken getSTSCredentials T options w) in
  exists s f,
    trace w' = (trace wc ++ s ++ f)%list
    /\ requestTimestamps w' = requestTimestamps wc
    /\ cachedToken w' = cachedToken wc
    /\ env w' = env wc
    /\ (s = [] /\ f = []
        \/ exists ro, s = [EvSign ro creds]
             /\ a_headers ro = merged_headers options tok
             /\ a_method ro = default "GET" (opt_method options)
             /\ (json_truthy (opt_body options) = false -> a_body ro = None)
             /\ (f = []
                 \/ exists req, f = [EvFetch req]
                      /\ f_method req = default "GET" (opt_method options)
                      /\ (json_truthy (opt_body options) = false -> f_body req = NoBody))).
Proof.
  intros Ha Hb wc w'. subst wc w'. rewrite spApiRequest_run.
  unfold Client.build_request, bind, process_env, gets, lift, emit, modify, ret.
  rewrite Ha. cbv beta iota. rewrite Hb. cbv beta iota.
  rewrite checkRateLimit_run. cbv beta iota.
  set (wc := after_check P T (Client.apiType_of (opt_path options)) wb).
  destruct (URL_host P _) as [host|e].
  - match goal with |- context [aws4_sign P ?ro creds] =>
      set (ro0 := ro); destruct (aws4_sign P ro0 creds) as [signed|e] end.
    + unfold fetch. cbv beta iota zeta.
      match goal with |- context [completion ?r] => destruct (completion r) as [resp|e] end.
      * exists [EvSign ro0 creds]. eexists [EvFetch _].
        destruct (body_text resp); simpl; rewrite <- app_assoc;
          (split; [reflexivity|]); repeat (split; [reflexivity|]);
          right; exists ro0; repeat (split; [reflexivity|]);
          (split; [subst ro0; simpl; intros ->; reflexivity|]);
          right; eexists; (split; [reflexivity|]); (split; [reflexivity|]);
          simpl; intros ->; reflexivity.
      * exists [EvSign ro0 creds]. eexists [EvFetch _].
        simpl; rewrite <- app_assoc;
          (split; [reflexivity|]); repeat (split; [reflexivity|]);
          right; exists ro0; repeat (split; [reflexivity|]);
          (split; [subst ro0; simpl; intros ->; reflexivity|]);
          right; eexists; (split; [reflexivity|]); (split; [reflexivity|]);
          simpl; intros ->; reflexivity.
    + exists [EvSign ro0 creds], []. simpl.
      (split; [reflexivity|]); repeat (split; [reflexivity|]).
      right. exists ro0. repeat (split; [reflexivity|]).
      split; [subst ro0; simpl; intros ->; reflexivity|]. left. reflexivity.
  - exists [], []. simpl. rewrite app_nil_r. repeat (split; [reflexivity|]).
    left. split; reflexivity.
Qed.

End ExecutorShape.

Section ExecutorAttempts.

Variable P : Platform.
Variable T : RateTable.

Lemma after_check_counts (apiType : string) (w : World) :
  fetch_count (trace (after_check P T apiType w)) = fetch_count (trace w)
  /\ (timer_count (trace (after_check P T apiType w)) <= timer_count (trace w) + 1)%nat.
Proof.
  unfold after_check. destruct (Client.at_limit _ _); simpl;
    rewrite fetch_count_app, timer_count_app; unfold fetch_count, timer_count; simpl; lia.
Qed.

(** The run of [getAccessToken] when the identity provider rejects the
    exchange. *)
Lemma refresh_rejected_run (w : World) (r : HttpResponse) (txt : string) :
  cache_valid (cachedToken w) (clock w) = false ->
  fetch_reply P (fetch_count (trace w)) (token_request (env w))
    = {| latency := latency (fetch_reply P (fetch_count (trace w)) (token_request (env w)));
         completion := Returned r |} ->
  ok r = false ->
  body_text r = Returned txt ->
  Auth.getAccessToken P w
  = (Thrown (JsError ("Failed to refresh token: " +:+ txt)),
     set_clock (clock w + Z.of_N (latency (fetch_reply P (fetch_count (trace w))
                                              (token_request (env w)))))
       (add_event (EvFetch (token_request (env w))) (add_event EvGetAccessToken w))).
Proof.
  intros Hv Hr Hok Htxt. rewrite getAccessToken_miss by exact Hv.
  unfold Auth.refreshToken, fetch, response_text. run_monad.
  rewrite fetch_count_snoc by reflexivity.
  rewrite Hr. simpl. rewrite Hok. simpl. rewrite Htxt. reflexivity.
Qed.

End ExecutorAttempts.

(** X11.  One call of [spApiRequest] makes a single attempt: after the two
    auth functions have returned it performs at most one [fetch] and arms at
    most one timer, and with the shipped auth module the whole call performs
    at most two network calls (one token exchange, one API call). *)
Theorem executor_single_attempt (P : Platform) (T : RateTable)
    (options : SPAPIRequestOptions) (w : World) :
  (forall getAccessToken getSTSCredentials tok creds wa wb,
     getAccessToken w = (Returned tok, wa) ->
     getSTSCredentials wa = (Returned creds, wb) ->
     let w' := snd (Client.spApiRequest P getAccessToken getSTSCredentials T options w) in
     (fetch_count (trace w') <= fetch_count (trace wb) + 1)%nat
     /\ (timer_count (trace w') <= timer_count (trace wb) + 1)%nat)
  /\ (let w' := snd (Client.spApiRequest P (Auth.getAccessToken P) Auth.getSTSCredentials
                       T options w) in
      (fetch_count (trace w') <= fetch_count (trace w) + 2)%nat
      /\ (timer_count (trace w') <= timer_count (trace w) + 1)%nat).
Proof.
  assert (forall getAccessToken getSTSCredentials tok creds wa wb,
     getAccessToken w = (Returned tok, wa) ->
     getSTSCredentials wa = (Returned creds, wb) ->
     let w' := snd (Client.spApiRequest P getAccessToken getSTSCredentials T options w) in
     (fetch_count (trace w') <= fetch_count (trace wb) + 1)%nat
     /\ (timer_count (trace w') <= timer_count (trace wb) + 1)%nat) as Hgen.
  { intros GA GS tok creds wa wb Ha Hb w'. subst w'.
    destruct (spApiRequest_after_auth P GA GS T options w wa wb tok creds Ha Hb)
      as (s & f & Htr & _ & _ & _ & Hshape).
    destruct (after_check_counts P T (Client.apiType_of (opt_path options)) wb) as [Hf Ht].
    rewrite Htr, !fetch_count_app, !timer_count_app, Hf.
    destruct Hshape as [[-> ->] | (ro & -> & _ & _ & _ & [-> | (req & -> & _)])];
      unfold fetch_count, timer_count in *; simpl; lia. }
  split; [exact Hgen|]. intros w'. subst w'.
  destruct (getAccessToken_trace P w) as (m & Hm & Htr).
  assert ((fetch_count (EvGetAccessToken :: m) <= 1)%nat
          /\ timer_count (EvGetAccessToken :: m) = 0%nat) as [Hmf Hmt].
  { destruct Hm as [-> | ->]; unfold fetch_count, timer_count; simpl; lia. }
  destruct (Auth.getAccessToken P w) as [[tok|e] wa] eqn:Ha; simpl in Htr.
  - destruct (getSTSCredentials_run wa) as (creds & Hb).
    destruct (Hgen _ _ tok creds wa _ Ha Hb) as [Hf Ht].
    assert (fetch_count (trace (add_event EvGetSTSCredentials wa)) = fetch_count (trace wa))
      as Ef by (simpl; apply fetch_count_snoc; reflexivity).
    assert (timer_count (trace (add_event EvGetSTSCredentials wa)) = timer_count (trace wa))
      as Et by (simpl; apply timer_count_snoc; reflexivity).
    rewrite Ef in Hf. rewrite Et in Ht.
    rewrite Htr, fetch_count_app in Hf. rewrite Htr, timer_count_app in Ht. lia.
  - rewrite spApiRequest_run. unfold Client.build_request, bind. rewrite Ha. simpl.
    rewrite Htr, fetch_count_app, timer_count_app. lia.
Qed.

Lemma executor_single_attempt_witness :
  let P := Scenario.platform (Scenario.responds 503 "") in
  let w' := snd (Scenario.execute P Scenario.get_orders Scenario.warm) in
  (fetch_count (trace w') <= 1)%nat.
Proof.
  intros P w'.
  pose proof (proj1 (executor_single_attempt P Client.RATE_LIMITS Scenario.get_orders
                       Scenario.warm)
                (Auth.getAccessToken P) Auth.getSTSCredentials _ _ _ _
                ltac:(vm_compute; reflexivity) ltac:(vm_compute; reflexivity)) as [H _].
  exact H.
Defined.

(** X12.  When the token exchange is rejected, [spApiRequest] reports
    [{success: false, error: "Failed to refresh token: " + body}] with no
    status code, and stops there: the API is not contacted, the limiter is
    not entered and the call is not counted in any category's log. *)
Theorem token_failure_stops_request (P : Platform) (T : RateTable)
    (options : SPAPIRequestOptions) (w : World) (r : HttpResponse) (txt : string) :
  cache_valid (cachedToken w) (clock w) = false ->
  completion (fetch_reply P (fetch_count (trace w)) (token_request (env w))) = Returned r ->
  ok r = false ->
  body_text r = Returned txt ->
  let run := Client.spApiRequest P (Auth.getAccessToken P) Auth.getSTSCredentials
               T options w in
  fst run = Returned {| success := false; data := None;
                        error := Some ("Failed to refresh token: " +:+ txt);
                        statusCode := None |}
  /\ trace (snd run) = (trace w ++ [EvGetAccessToken; EvFetch (token_request (env w))])%list
  /\ requestTimestamps (snd run) = requestTimestamps w
  /\ cachedToken (snd run) = cachedToken w.
Proof.
  intros Hv Hr Hok Htxt run. subst run. rewrite spApiRequest_run.
  unfold Client.build_request, bind.
  rewrite (refresh_rejected_run P w r txt Hv) by
    (try assumption; destruct (fetch_reply P _ _) as [l c]; simpl in *; congruence).
  simpl. rewrite <- app_assoc. repeat split.
Qed.

Lemma token_failure_stops_request_witness :
  fst (Scenario.execute (Scenario.platform (Scenario.responds 401 "invalid_client"))
         Scenario.get_orders Scenario.stale)
  = Returned {| success := false; data := None;
                error := Some "Failed to refresh token: invalid_client";
                statusCode := None |}.
Proof.
  exact (proj1 (token_failure_stops_request
                  (Scenario.platform (Scenario.responds 401 "invalid_client"))
                  Client.RATE_LIMITS Scenario.get_orders Scenario.stale
                  {| status := 401; body_text := Returned "invalid_client" |}
                  "invalid_client" eq_refl eq_refl eq_refl eq_refl)).
Defined.



Section ExecutorRequest.

Variable P : Platform.
Variable T : RateTable.

Lemma after_check_trace_exact (apiType : string) (w : World) :
  exists t, trace (after_check P T apiType w)
            = (trace w ++ EvCheckRateLimit apiType :: t)%list
            /\ (t = [] \/ exists ms, t = [EvSetTimeout ms]).
Proof.
  unfold after_check. destruct (Client.at_limit _ _); simpl.
  - eexists. split; [reflexivity|]. right. eexists. reflexivity.
  - exists []. split; [reflexivity | left; reflexivity].
Qed.

(** What a run adds to the trace after the auth functions have returned,
    with the properties of the one signature request and the one [fetch] it
    may hold. *)
Lemma spApiRequest_new_events (getAccessToken : M string)
    (getSTSCredentials : M Credentials) (options : SPAPIRequestOptions)
    (w wa wb : World) (tok : string) (creds : Credentials) :
  getAccessToken w = (Returned tok, wa) ->
  getSTSCredentials wa = (Returned creds, wb) ->
  exists new,
    trace (snd (Client.spApiRequest P getAccessToken getSTSCredentials T options w))
      = (trace wb ++ new)%list
    /\ (forall ro c, In (EvSign ro c) new ->
          c = creds
          /\ a_headers ro = merged_headers options tok
          /\ (json_truthy (opt_body options) = false -> a_body ro = None))
    /\ (forall req, In (EvFetch req) new ->
          f_method req = default "GET" (opt_method options)
          /\ (json_truthy (opt_body options) = false -> f_body req = NoBody)).
Proof.
  intros Ha Hb.
  destruct (spApiRequest_after_auth P getAccessToken getSTSCredentials T options
              w wa wb tok creds Ha Hb) as (s & f & Htr & _ & _ & _ & Hshape).
  destruct (after_check_trace_exact (Client.apiType_of (opt_path options)) wb)
    as (t & Ht & Htimer).
  exists (EvCheckRateLimit (Client.apiType_of (opt_path options)) :: t ++ s ++ f)%list.
  split; [rewrite Htr, Ht, <- app_assoc; reflexivity|].
  assert (forall e, In e t -> is_timer e = true) as Htim.
  { intros e He. destruct Htimer as [-> | [ms ->]]; simpl in He;
      [contradiction | destruct He as [<- | []]; reflexivity]. }
  split.
  - intros ro c [Hin | Hin]; [discriminate|].
    apply in_app_or in Hin as [Hin | Hin]; [apply Htim in Hin; discriminate|].
    destruct Hshape as [[-> ->] | (ro0 & -> & Hh & _ & Hbody & Hf)]; [destruct Hin|].
    destruct Hin as [[= <- <-] | Hin]; [auto|].
    destruct Hf as [-> | (req & -> & _)]; simpl in Hin; [contradiction|].
    destruct Hin as [? | []]; discriminate.
  - intros req [Hin | Hin]; [discriminate|].
    apply in_app_or in Hin as [Hin | Hin]; [apply Htim in Hin; discriminate|].
    destruct Hshape as [[-> ->] | (ro0 & -> & _ & _ & _ & Hf)]; [destruct Hin|].
    destruct Hin as [? | Hin]; [discriminate|].
    destruct Hf as [-> | (req0 & -> & Hm & Hbody)]; simpl in Hin; [contradiction|].
    destruct Hin as [[= <-] | []]. auto.
Qed.

End ExecutorRequest.

(** X14.  Headers supplied by the caller take precedence over the two the
    executor sets: every caller header reaches the signer with the caller's
    value, so a caller-supplied [x-amz-access-token] or [Content-Type]
    replaces the token just obtained or the JSON content type; only a name
    the caller does not use keeps the executor's value. *)
Theorem caller_headers_override (P : Platform) (T : RateTable)
    (getAccessToken : M string) (getSTSCredentials : M Credentials)
    (options : SPAPIRequestOptions) (w wa wb : World) (tok : string)
    (creds : Credentials) :
  getAccessToken w = (Returned tok, wa) ->
  getSTSCredentials wa = (Returned creds, wb) ->
  exists new,
    trace (snd (Client.spApiRequest P getAccessToken getSTSCredentials T options w))
      = (trace wb ++ new)%list
    /\ forall ro c, In (EvSign ro c) new ->
         let caller := default ∅ (opt_headers options) in
         (forall k v, caller !! k = Some v -> a_headers ro !! k = Some v)
         /\ (caller !! "x-amz-access-token" = None ->
             a_headers ro !! "x-amz-access-token" = Some tok)
         /\ (caller !! "Content-Type" = None ->
             a_headers ro !! "Content-Type" = Some "application/json").
Proof.
  intros Ha Hb.
  destruct (spApiRequest_new_events P T getAccessToken getSTSCredentials options
              w wa wb tok creds Ha Hb) as (new & Htr & Hsign & _).
  exists new. split; [exact Htr|].
  intros ro c Hin caller. destruct (Hsign ro c Hin) as (_ & Hh & _).
  rewrite Hh. unfold merged_headers. fold caller. repeat split.
  - intros k v Hk. apply lookup_union_Some_l. exact Hk.
  - intros Hnone. rewrite lookup_union_r by exact Hnone. apply lookup_insert_eq.
  - intros Hnone. rewrite lookup_union_r by exact Hnone.
    rewrite lookup_insert_ne by discriminate. apply lookup_singleton_eq.
Qed.

(** X15.  A body that is [undefined], [null], [false], [0] or the empty
    string is not sent: the signer gets no body and [fetch] is called
    without one, whatever the method. *)
Theorem falsy_body_not_sent (P : Platform) (T : RateTable)
    (getAccessToken : M string) (getSTSCredentials : M Credentials)
    (options : SPAPIRequestOptions) (w wa wb : World) (tok : string)
    (creds : Credentials) :
  getAccessToken w = (Returned tok, wa) ->
  getSTSCredentials wa = (Returned creds, wb) ->
  json_truthy (opt_body options) = false ->
  exists new,
    trace (snd (Client.spApiRequest P getAccessToken getSTSCredentials T options w))
      = (trace wb ++ new)%list
    /\ (forall ro c, In (EvSign ro c) new -> a_body ro = None)
    /\ (forall req, In (EvFetch req) new -> f_body req = NoBody).
Proof.
  intros Ha Hb Hfalsy.
  destruct (spApiRequest_new_events P T getAccessToken getSTSCredentials options
              w wa wb tok creds Ha Hb) as (new & Htr & Hsign & Hfetch).
  exists new. split; [exact Htr|]. split.
  - intros ro c Hin. destruct (Hsign ro c Hin) as (_ & _ & H). exact (H Hfalsy).
  - intros req Hin. destruct (Hfetch req Hin) as (_ & H). exact (H Hfalsy).
Qed.

(** ** More on the token manager and the credential resolvers *)

Section TokenRuns.

Variable P : Platform.

(** The run of a successful exchange. *)
Lemma refresh_success_run (w : World) (r : HttpResponse) (txt : string)
    (d : TokenResponse) :
  cache_valid (cachedToken w) (clock w) = false ->
  completion (fetch_reply P (fetch_count (trace w)) (token_request (env w))) = Returned r ->
  ok r = true ->
  body_text r = Returned txt ->
  response_json P txt = Some d ->
  let t := clock w + Z.of_N (latency (fetch_reply P (fetch_count (trace w))
                                        (token_request (env w)))) in
  Auth.getAccessToken P w
  = (Returned (access_token d),
     {| clock := t; env := env w;
        cachedToken := Some {| accessToken := access_token d;
                               expiresAt := t + expires_in d * 1000 |};
        requestTimestamps := requestTimestamps w;
        trace := (trace w ++ [EvGetAccessToken; EvFetch (token_request (env w))])%list |}).
Proof.
  intros Hv Hr Hok Htxt Hd t. subst t. rewrite getAccessToken_miss by exact Hv.
  unfold Auth.refreshToken, fetch, response_json_token, response_text. run_monad.
  rewrite fetch_count_snoc by reflexivity.
  rewrite Hr. simpl. rewrite Hok. simpl. rewrite Htxt. simpl. rewrite Hd. simpl.
  unfold set_cachedToken, set_clock, add_event. simpl. rewrite <- app_assoc. reflexivity.
Qed.

End TokenRuns.

(** X16.  [getAccessToken] (either revision) is exception safe: whenever it
    throws (rejected exchange, network failure, unreadable or non-JSON
    body) the cached token is what it was, and whenever it returns, what it
    returns is the value of the token now in the cache.  It never touches
    the environment or the limiter's logs. *)
Theorem getAccessToken_exception_safe (P : Platform) (w : World) :
  token_run_safe (Auth.getAccessToken P) w
  /\ token_run_safe (AuthRole.getAccessToken P) w.
Proof.
  split; unfold token_run_safe.
  - unfold Auth.getAccessToken, Auth.refreshToken, fetch, response_json_token, response_text.
    run_monad.
    destruct (cachedToken w) as [c|] eqn:Hc;
      [destruct (expiresAt c >? clock w + 60000); [simpl; rewrite Hc; repeat split; eauto; lia|]|];
      simpl; destruct (completion _) as [r|]; simpl; try (repeat split; try assumption; lia);
      destruct (negb (ok r)); simpl; destruct (body_text r) as [txt|]; simpl;
      try (repeat split; try assumption; lia);
      destruct (response_json P txt); simpl;
      repeat split; try assumption; try lia; eauto.
  - unfold AuthRole.getAccessToken, AuthRole.refreshToken, fetch, response_json_token,
      response_text.
    run_monad.
    destruct (cachedToken w) as [c|] eqn:Hc;
      [destruct (expiresAt c >? clock w + 60000); [simpl; rewrite Hc; repeat split; eauto; lia|]|];
      simpl; destruct (completion _) as [r|]; simpl; try (repeat split; try assumption; lia);
      destruct (negb (ok r)); simpl; destruct (body_text r) as [txt|]; simpl;
      try (repeat split; try assumption; lia);
      destruct (response_json P txt); simpl;
      repeat split; try assumption; try lia; eauto.
Qed.

(** X17.  A token granted for 60 seconds or less is never served from the
    cache: after the exchange that stored it, every later call, however
    soon, finds it within the safety margin and performs a new exchange. *)
Theorem short_lived_token_never_reused (P : Platform) (w : World)
    (r : HttpResponse) (txt : string) (d : TokenResponse) (later : N) :
  cache_valid (cachedToken w) (clock w) = false ->
  completion (fetch_reply P (fetch_count (trace w)) (token_request (env w))) = Returned r ->
  ok r = true ->
  body_text r = Returned txt ->
  response_json P txt = Some d ->
  expires_in d <= 60 ->
  let w1 := elapse later (snd (Auth.getAccessToken P w)) in
  fst (Auth.getAccessToken P w) = Returned (access_token d)
  /\ trace (snd (Auth.getAccessToken P w1))
     = (trace w1 ++ [EvGetAccessToken; EvFetch (token_request (env w1))])%list.
Proof.
  intros Hv Hr Hok Htxt Hd Hshort w1. subst w1.
  split; [rewrite (refresh_success_run P w r txt d Hv Hr Hok Htxt Hd); reflexivity|].
  apply getAccessToken_miss_trace.
  rewrite (refresh_success_run P w r txt d Hv Hr Hok Htxt Hd).
  unfold elapse, cache_valid. simpl.
  rewrite Z.gtb_ltb. apply Z.ltb_ge. lia.
Qed.

Lemma truthy_Some (v : option string) :
  truthy v = true -> exists s, v = Some s /\ s <> "".
Proof.
  destruct v as [s|]; simpl; [|discriminate].
  intros H. exists s. split; [reflexivity|].
  apply negb_true_iff, String.eqb_neq in H. exact H.
Qed.

Lemma valid_all_truthy (required : list string) (e : gmap string string) (k : string) :
  valid (validate_against required e) = true -> In k required -> truthy (e !! k) = true.
Proof.
  intros Hv Hk. apply valid_iff_missing_nil, missing_nil_iff in Hv.
  rewrite List.Forall_forall in Hv. exact (Hv k Hk).
Qed.

(** X18.  A configuration that passes [validateCredentials] (either
    revision) makes the token-exchange request carry the three configured
    values, all non-empty.  Without that check nothing stops the exchange:
    when REFRESH_TOKEN is not set, a call with no valid cached token still
    posts the request, with the text "undefined" as refresh token. *)
Theorem validated_token_request (P : Platform) (w : World) :
  (valid (Auth.validateCredentials (env w)) = true
   \/ valid (AuthRole.validateCredentials (env w)) = true ->
   exists refresh id secret,
     refresh <> "" /\ id <> "" /\ secret <> ""
     /\ env w !! "REFRESH_TOKEN" = Some refresh
     /\ env w !! "LWA_CLIENT_ID" = Some id
     /\ env w !! "LWA_CLIENT_SECRET" = Some secret
     /\ f_body (token_request (env w))
        = FormBody [ ("grant_type", "refresh_token"); ("refresh_token", refresh);
                     ("client_id", id); ("client_secret", secret) ])
  /\ (env w !! "REFRESH_TOKEN" = None ->
      cache_valid (cachedToken w) (clock w) = false ->
      exists req id secret,
        trace (snd (Auth.getAccessToken P w)) = (trace w ++ [EvGetAccessToken; EvFetch req])%list
        /\ f_body req = FormBody [ ("grant_type", "refresh_token");
                                   ("refresh_token", "undefined");
                                   ("client_id", id); ("client_secret", secret) ]).
Proof.
  split.
  - intros Hvalid.
    assert (forall k, In k Auth.required -> truthy (env w !! k) = true) as Hall.
    { intros k Hk. destruct Hvalid as [Hv | Hv].
      - exact (valid_all_truthy Auth.required (env w) k Hv Hk).
      - apply (valid_all_truthy AuthRole.required (env w) k Hv).
        unfold Auth.required, AuthRole.required in *. simpl in *. tauto. }
    destruct (truthy_Some _ (Hall "REFRESH_TOKEN" ltac:(simpl; tauto))) as (rf & Hrf & Nrf).
    destruct (truthy_Some _ (Hall "LWA_CLIENT_ID" ltac:(simpl; tauto))) as (id & Hid & Nid).
    destruct (truthy_Some _ (Hall "LWA_CLIENT_SECRET" ltac:(simpl; tauto))) as (sc & Hsc & Nsc).
    exists rf, id, sc. repeat (split; [assumption|]).
    unfold token_request. simpl. rewrite Hrf, Hid, Hsc. reflexivity.
  - intros Hnone Hv. rewrite getAccessToken_miss_trace by exact Hv.
    eexists _, _, _. split; [reflexivity|].
    unfold token_request. simpl. rewrite Hnone. reflexivity.
Qed.

Lemma validated_token_request_witness :
  f_body (token_request (env Scenario.with_role))
  = FormBody [ ("grant_type", "refresh_token"); ("refresh_token", "Atzr|r");
               ("client_id", "amzn1.application-oa2-client.x");
               ("client_secret", "secret") ].
Proof.
  destruct (proj1 (validated_token_request (Scenario.platform Scenario.network_down)
                     Scenario.with_role) (or_intror eq_refl))
    as (rf & id & sc & _ & _ & _ & Hrf & Hid & Hsc & Hbody).
  rewrite Hbody. vm_compute in Hrf, Hid, Hsc.
  injection Hrf as <-. injection Hid as <-. injection Hsc as <-. reflexivity.
Defined.

(** X19.  The token-only [getSTSCredentials] agrees with
    [hasAWSCredentials]: it returns a pair with both fields non-empty
    exactly when [hasAWSCredentials] is true, and the dummy pair otherwise
    (also when only one of the two variables is set, which is then not
    used).  It never returns a session token, never throws, and performs no
    network call. *)
Theorem getSTSCredentials_matches_hasAWSCredentials (w : World) :
  exists c,
    Auth.getSTSCredentials w = (Returned c, add_event EvGetSTSCredentials w)
    /\ (Auth.hasAWSCredentials (env w) = true
        <-> truthy (accessKeyId c) = true /\ truthy (secretAccessKey c) = true)
    /\ (Auth.hasAWSCredentials (env w) = false -> c = dummy_credentials)
    /\ sessionToken c = None.
Proof.
  rewrite getSTSCredentials_token_only. eexists. split; [reflexivity|].
  unfold Auth.hasAWSCredentials.
  destruct (truthy (env w !! "AWS_ACCESS_KEY_ID")) eqn:Hk;
    destruct (truthy (env w !! "AWS_SECRET_ACCESS_KEY")) eqn:Hs; simpl;
    repeat split; try tauto; try congruence; try discriminate;
    intros [? ?]; discriminate.
Qed.

Section RoleExchange.

Variable P : Platform.

Lemma role_getAccessToken_trace (w : World) :
  exists m, (m = [] \/ m = [EvFetch (token_request (env w))])
            /\ trace (snd (AuthRole.getAccessToken P w))
               = (trace w ++ EvGetAccessToken :: m)%list.
Proof.
  unfold AuthRole.getAccessToken, AuthRole.refreshToken, fetch, response_json_token,
    response_text.
  run_monad.
  destruct (cachedToken w) as [c|];
    [destruct (expiresAt c >? clock w + 60000);
       [exists []; split; [left; reflexivity | reflexivity]|]|];
    simpl; exists [EvFetch (token_request (env w))]; (split; [right; reflexivity|]);
    destruct (completion _) as [r|]; simpl;
    try (rewrite <- app_assoc; reflexivity);
    destruct (negb (ok r)); simpl; destruct (body_text r) as [txt|]; simpl;
    try (rewrite <- app_assoc; reflexivity);
    destruct (response_json P txt); simpl; rewrite <- app_assoc; reflexivity.
Qed.

End RoleExchange.

(** X20.  The role-based [getSTSCredentials] contacts the security-token
    service only when a role is configured, is not the placeholder, and the
    access token could be obtained: with no role (or the placeholder) it
    records nothing but its own entry, and when [getAccessToken] throws it
    throws the same exception without sending the [AssumeRole] request. *)
Theorem sts_contacted_only_with_role (P : Platform) (w : World) :
  let w' := snd (AuthRole.getSTSCredentials P w) in
  let role := env w !! "AWS_ROLE_ARN" in
  (truthy role = false \/ role = Some AuthRole.placeholder_role ->
   trace w' = (trace w ++ [EvGetSTSCredentials])%list)
  /\ (forall e wa,
        truthy role = true -> role <> Some AuthRole.placeholder_role ->
        AuthRole.getAccessToken P (add_event EvGetSTSCredentials w) = (Thrown e, wa) ->
        AuthRole.getSTSCredentials P w = (Thrown e, wa)
        /\ exists m, (m = [] \/ m = [EvFetch (token_request (env w))])
             /\ trace wa = (trace w ++ EvGetSTSCredentials :: EvGetAccessToken :: m)%list)
  /\ (forall tok wa,
        truthy role = true -> role <> Some AuthRole.placeholder_role ->
        AuthRole.getAccessToken P (add_event EvGetSTSCredentials w) = (Returned tok, wa) ->
        trace w' = (trace wa ++ [EvFetch (AuthRole.sts_request role)])%list).
Proof.
  intros w' role. subst w' role. refine (conj _ (conj _ _)).
  - intros H. rewrite (getSTSCredentials_role_unset P w H). reflexivity.
  - intros e wa Ht Hnp Ha.
    assert (AuthRole.getSTSCredentials P w = (Thrown e, wa)) as Hrun.
    { unfold AuthRole.getSTSCredentials. run_monad. rewrite Ht.
      rewrite bool_decide_eq_false_2 by exact Hnp. simpl. rewrite Ha. reflexivity. }
    split; [exact Hrun|].
    destruct (role_getAccessToken_trace P (add_event EvGetSTSCredentials w))
      as (m & Hm & Htr).
    rewrite Ha in Htr. simpl in Htr. exists m. split; [exact Hm|].
    rewrite Htr, <- app_assoc. reflexivity.
  - intros tok wa Ht Hnp Ha.
    unfold AuthRole.getSTSCredentials, fetch, response_text. run_monad. rewrite Ht.
    rewrite bool_decide_eq_false_2 by exact Hnp. simpl. rewrite Ha.
    destruct (completion _) as [r|]; simpl; [|reflexivity].
    destruct (negb (ok r)); simpl; [reflexivity|].
    destruct (body_text r); reflexivity.
Qed.

(** ** More on the rate limiter *)

(** X21.  The timestamp logs stay ordered: in a process whose logs are in
    ascending order and not ahead of the clock (in particular a fresh
    process), any sequence of limiter calls on any categories, with any
    pauses between them, leaves every log in ascending order and not ahead
    of the clock, so the first entry of a log is always its oldest. *)
Theorem logs_stay_ordered (P : Platform) (T : RateTable)
    (script : list (N * string)) (w : World) :
  (requestTimestamps w = ∅ -> logs_ordered w)
  /\ (logs_ordered w -> logs_ordered (calls P T script w)).
Proof.
  split.
  - intros Hfresh cat. unfold log_of. rewrite Hfresh, lookup_empty. simpl.
    repeat constructor.
  - revert w. induction script as [|[gap cat] rest IH]; intros w Hord; simpl.
    + exact Hord.
    + apply IH, checkRateLimit_keeps_order, elapse_keeps_order, Hord.
Qed.

Lemma logs_stay_ordered_witness :
  logs_ordered (calls (Scenario.platform Scenario.network_down) Client.RATE_LIMITS
                  [(0%N, "orders"); (10%N, "reports"); (0%N, "reports"); (5%N, "orders")]
                  Scenario.warm).
Proof.
  apply (proj2 (logs_stay_ordered (Scenario.platform Scenario.network_down)
                  Client.RATE_LIMITS
                  [(0%N, "orders"); (10%N, "reports"); (0%N, "reports"); (5%N, "orders")]
                  Scenario.warm)).
  apply (proj1 (logs_stay_ordered (Scenario.platform Scenario.network_down)
                  Client.RATE_LIMITS [] Scenario.warm)).
  reflexivity.
Defined.

(** X22.  Pruning is done on every call: after a call, every timestamp in
    the category's log is less than one period older than the time the call
    was made (for a positive period), whatever the log held before. *)
Theorem log_within_window (P : Platform) (T : RateTable) (cat : string) (w : World) :
  0 < period (Client.limit_for T cat) ->
  Forall (fun t => clock w - t < period (Client.limit_for T cat))
         (log_of (snd (Client.checkRateLimit P T cat w)) cat).
Proof.
  intros Hp. rewrite checkRateLimit_run. simpl snd. rewrite log_of_after_check.
  destruct (decide (cat = cat)); [|congruence].
  apply Forall_app. split.
  - apply List.Forall_forall. intros t Ht.
    apply List.filter_In in Ht as [_ Ht]. apply Z.ltb_lt in Ht. exact Ht.
  - constructor; [lia | constructor].
Qed.

Lemma log_within_window_witness :
  Forall (fun t => clock Scenario.saturated - t < 1000)
         (log_of (snd (Client.checkRateLimit (Scenario.platform Scenario.network_down)
                         Client.RATE_LIMITS "inventory" Scenario.saturated)) "inventory").
Proof.
  apply (log_within_window (Scenario.platform Scenario.network_down)
           Client.RATE_LIMITS "inventory" Scenario.saturated).
  reflexivity.
Defined.

(** X23.  The limiter does not bound the calls released per window: with
    [maxRequests = 2] and [periodMillis = 1000], of five calls made one
    after the other on a fresh category the third waits, and the fourth and
    the fifth are then let through at once, so three calls are released at
    the same instant (the waiting call logged the time before its wait, and
    that entry is pruned as soon as the wait is over). *)
Theorem burst_after_wait (P : Platform) (T : RateTable) (cat : string) (w : World) :
  Client.limit_for T cat = {| requests := 2; period := 1000 |} ->
  log_of w cat = [] ->
  let call w := snd (Client.checkRateLimit P T cat w) in
  let w3 := call (call (call w)) in
  let w4 := call w3 in
  let w5 := call w4 in
  clock w3 >= clock w + 1000
  /\ undelayed w3 w4
  /\ undelayed w4 w5
  /\ clock w5 = clock w3.
Proof.
  intros Hlimit Hfresh call w3 w4 w5. subst w5 w4 w3 call. cbv beta.
  rewrite !checkRateLimit_run. simpl snd.
  set (t := clock w).
  assert (after_check P T cat w =
          {| clock := t; env := env w; cachedToken := cachedToken w;
             requestTimestamps := <[ cat := [t] ]> (requestTimestamps w);
             trace := (trace w ++ [EvCheckRateLimit cat])%list |}) as ->.
  { unfold after_check. unfold log_of in Hfresh. rewrite Hlimit, Hfresh. reflexivity. }
  assert (forall tr, after_check P T cat
            {| clock := t; env := env w; cachedToken := cachedToken w;
               requestTimestamps := <[ cat := [t] ]> (requestTimestamps w); trace := tr |}
          = {| clock := t; env := env w; cachedToken := cachedToken w;
               requestTimestamps := <[ cat := [t; t] ]> (requestTimestamps w);
               trace := (tr ++ [EvCheckRateLimit cat])%list |}) as ->.
  { intros tr. unfold after_check. rewrite Hlimit. simpl. rewrite lookup_insert_eq. simpl.
    destruct (Z.ltb_spec (t - t) 1000); [|lia]. rewrite at_limit_two. simpl.
    rewrite insert_insert_eq. reflexivity. }
  set (t3 := t + Z.max 0 (1000 - (t - t)) +
             Z.of_N (timer_lag P (timer_count
               ((trace w ++ [EvCheckRateLimit cat]) ++ [EvCheckRateLimit cat])))).
  assert (forall tr, timer_count tr = timer_count
             ((trace w ++ [EvCheckRateLimit cat]) ++ [EvCheckRateLimit cat]) ->
          after_check P T cat
            {| clock := t; env := env w; cachedToken := cachedToken w;
               requestTimestamps := <[ cat := [t; t] ]> (requestTimestamps w); trace := tr |}
          = {| clock := t3; env := env w; cachedToken := cachedToken w;
               requestTimestamps := <[ cat := [t; t; t] ]> (requestTimestamps w);
               trace := (tr ++ [EvCheckRateLimit cat; EvSetTimeout (1000 - (t - t))])%list |})
    as E3.
  { intros tr Htr. unfold after_check. rewrite Hlimit. simpl. rewrite lookup_insert_eq. simpl.
    destruct (Z.ltb_spec (t - t) 1000); [|lia]. rewrite at_limit_two. simpl.
    rewrite insert_insert_eq, Htr. reflexivity. }
  rewrite E3 by reflexivity. clear E3.
  assert (t + 1000 <= t3) as Ht3 by (subst t3; lia).
  assert (forall tr, after_check P T cat
            {| clock := t3; env := env w; cachedToken := cachedToken w;
               requestTimestamps := <[ cat := [t; t; t] ]> (requestTimestamps w); trace := tr |}
          = {| clock := t3; env := env w; cachedToken := cachedToken w;
               requestTimestamps := <[ cat := [t3] ]> (requestTimestamps w);
               trace := (tr ++ [EvCheckRateLimit cat])%list |}) as ->.
  { intros tr. unfold after_check. rewrite Hlimit. simpl. rewrite lookup_insert_eq. simpl.
    destruct (Z.ltb_spec (t3 - t) 1000); [lia|]. rewrite at_limit_two. simpl.
    rewrite insert_insert_eq. reflexivity. }
  assert (forall tr, after_check P T cat
            {| clock := t3; env := env w; cachedToken := cachedToken w;
               requestTimestamps := <[ cat := [t3] ]> (requestTimestamps w); trace := tr |}
          = {| clock := t3; env := env w; cachedToken := cachedToken w;
               requestTimestamps := <[ cat := [t3; t3] ]> (requestTimestamps w);
               trace := (tr ++ [EvCheckRateLimit cat])%list |}) as ->.
  { intros tr. unfold after_check. rewrite Hlimit. simpl. rewrite lookup_insert_eq. simpl.
    destruct (Z.ltb_spec (t3 - t3) 1000); [|lia]. rewrite at_limit_two. simpl.
    rewrite insert_insert_eq. reflexivity. }
  unfold undelayed. simpl.
  repeat split; try lia; apply timer_count_snoc; reflexivity.
Qed.

Lemma burst_after_wait_witness :
  let call w := snd (Client.checkRateLimit (Scenario.platform Scenario.network_down)
                       Client.RATE_LIMITS "inventory" w) in
  let w3 := call (call (call Scenario.warm)) in
  clock w3 >= clock Scenario.warm + 1000
  /\ undelayed w3 (call w3)
  /\ undelayed (call w3) (call (call w3))
  /\ clock (call (call w3)) = clock w3.
Proof.
  exact (burst_after_wait (Scenario.platform Scenario.network_down) Client.RATE_LIMITS
           "inventory" Scenario.warm eq_refl eq_refl).
Defined.

(** X24.  Categories are throttled independently: whatever the log of
    another category holds (saturated or not), a call on a category takes
    the same time, arms the same timer and leaves the same log for its
    category, and the other category's log is left as it is. *)
Theorem limiter_categories_independent (P : Platform) (T : RateTable)
    (cat other : string) (l : list Z) (w : World) :
  cat <> other ->
  let w_alt := set_requestTimestamps (<[ other := l ]> (requestTimestamps w)) w in
  let after := snd (Client.checkRateLimit P T cat w) in
  let after_alt := snd (Client.checkRateLimit P T cat w_alt) in
  clock after_alt = clock after
  /\ trace after_alt = trace after
  /\ log_of after_alt cat = log_of after cat
  /\ log_of after_alt other = l.
Proof.
  intros Hne w_alt after after_alt. subst w_alt after after_alt.
  rewrite !checkRateLimit_run. simpl snd.
  rewrite !log_of_after_check.
  destruct (decide (cat = cat)); [|congruence].
  destruct (decide (cat = other)); [congruence|].
  unfold after_check, log_of, set_requestTimestamps. simpl.
  rewrite lookup_insert_ne by congruence.
  rewrite lookup_insert_eq.
  destruct (Client.at_limit _ _); simpl; repeat split; reflexivity.
Qed.

Lemma limiter_categories_independent_witness :
  let P := Scenario.platform Scenario.network_down in
  let w_alt := set_requestTimestamps
                 (<[ "reports" := [Scenario.now0] ]> (requestTimestamps Scenario.warm))
                 Scenario.warm in
  clock (snd (Client.checkRateLimit P Client.RATE_LIMITS "orders" w_alt))
  = clock (snd (Client.checkRateLimit P Client.RATE_LIMITS "orders" Scenario.warm)).
Proof.
  intros P w_alt.
  exact (proj1 (limiter_categories_independent P Client.RATE_LIMITS "orders" "reports"
                  [Scenario.now0] Scenario.warm ltac:(discriminate))).
Defined.

Lemma Qle_inject_ceiling (r : Q) (n : Z) :
  (r <= inject_Z n)%Q <-> Qceiling r <= n.
Proof.
  split.
  - intros H. apply Qceiling_resp_le in H. rewrite Qceiling_Z in H. exact H.
  - intros H. apply Qle_trans with (inject_Z (Qceiling r)); [apply Qle_ceiling|].
    rewrite <- Zle_Qle. exact H.
Qed.

(** X25.  A fractional [requests] acts as the next whole number: the limit
    is reached exactly when the pruned log holds at least
    [ceiling requests] entries.  The shipped reports entry, 0.0167, thus
    acts as 1, and any limit at or below 0 is reached with an empty log. *)
Theorem fractional_limit_is_ceiling (limit : RateLimit) (log : list Z) :
  Client.at_limit limit log = (Qceiling (requests limit) <=? Z.of_nat (length log))
  /\ Qceiling (requests (Client.limit_for Client.RATE_LIMITS "reports")) = 1
  /\ ((requests limit <= 0)%Q -> Client.at_limit limit [] = true).
Proof.
  assert (forall l, Client.at_limit limit l
                    = (Qceiling (requests limit) <=? Z.of_nat (length l))) as H.
  { intros l. unfold Client.at_limit.
    destruct (Qle_bool _ _) eqn:Hq; symmetry.
    - apply Z.leb_le, Qle_inject_ceiling, Qle_bool_iff. exact Hq.
    - apply Z.leb_gt. apply Z.nle_gt. intros Hle.
      apply Qle_inject_ceiling, Qle_bool_iff in Hle. congruence. }
  split; [apply H|]. split; [reflexivity|].
  intros Hle. rewrite H. apply Z.leb_le. simpl.
  apply Qle_inject_ceiling. exact Hle.
Qed.

Lemma fractional_limit_is_ceiling_witness :
  Client.at_limit {| requests := 0; period := 1000 |} [] = true.
Proof.
  apply (proj2 (proj2 (fractional_limit_is_ceiling {| requests := 0; period := 1000 |} []))).
  discriminate.
Defined.

(** ** Route handlers *)

Lemma js_or_default_nonempty (a : option string) (d : string) :
  d <> "" -> js_or_default a d <> "".
Proof.
  intros Hd. unfold js_or_default. destruct a as [s|]; [|exact Hd].
  destruct (String.eqb_spec s ""); [exact Hd | assumption].
Qed.

Section RouteRuns.

Variable P : Platform.
Variable validateCredentials : gmap string string -> Validation.
Variable getAccessToken : M string.
Variable getSTSCredentials : M Credentials.
Variable T : RateTable.
Variable encodeURIComponent : string -> string.
Variable spApiClient : Facade.SPAPIClient.
Variable toISOString : Z -> string.

Abbreviation call_ :=
  (Routes.call P getAccessToken getSTSCredentials T encodeURIComponent spApiClient).
Abbreviation run_test_ := (Routes.run_test).
Abbreviation run_tests_ := (Routes.run_tests P).

(** A method call never throws. *)
Lemma call_returns (op : Facade.Operation) (w : World) :
  exists r w', call_ op w = (Returned r, w').
Proof.
  unfold Routes.call. rewrite spApiRequest_run.
  destruct (Client.build_request _ _ _ _ _ _) as [[req|e] w1]; [|eauto].
  destruct (fetch P req w1) as [[resp|e] w2]; [|eauto].
  destruct (body_text resp); eauto.
Qed.

(** One pass of the loop body records one result, named after the test,
    never marked as skipped. *)
Lemma run_test_returns (test : Routes.TestCase) (w : World) :
  exists r w', run_test_ test w = (Returned r, w')
    /\ Routes.r_name r = Routes.t_name test
    /\ Routes.r_endpoint r = Routes.t_endpoint test
    /\ Routes.r_status r <> Routes.test_skipped.
Proof.
  unfold Routes.run_test. run_monad.
  destruct (Routes.t_fn test w) as [[result|e] w1]; simpl.
  - destruct (success result); do 2 eexists; (split; [reflexivity|]);
      simpl; repeat split; discriminate.
  - do 2 eexists. split; [reflexivity|]. simpl. repeat split. discriminate.
Qed.

Lemma run_tests_returns (remaining : list Routes.TestCase)
    (results : list Routes.TestResult) (w : World) :
  exists rs w',
    run_tests_ remaining results w = (Returned (results ++ rs)%list, w')
    /\ List.map Routes.r_name rs = List.map Routes.t_name remaining
    /\ List.map Routes.r_endpoint rs = List.map Routes.t_endpoint remaining
    /\ Forall (fun r => Routes.r_status r <> Routes.test_skipped) rs.
Proof.
  revert results w. induction remaining as [|test rest IH]; intros results w; simpl.
  - exists [], w. rewrite app_nil_r. repeat split. constructor.
  - destruct (run_test_returns test w) as (r & w1 & Hrun & Hn & He & Hs).
    unfold bind at 1. rewrite Hrun.
    unfold bind at 1, setTimeout_await at 1.
    match goal with |- context [Routes.run_tests P rest ?res ?w2] =>
      destruct (IH res w2) as (rs & w' & Hrest & Hns & Hes & Hss) end.
    exists (r :: rs), w'. rewrite Hrest, <- app_assoc. simpl.
    rewrite Hn, He, Hns, Hes. repeat split. constructor; assumption.
Qed.

Lemma partition_counts (rs : list Routes.TestResult) :
  Forall (fun r => Routes.r_status r <> Routes.test_skipped) rs ->
  (length (List.filter Routes.is_success rs) + length (List.filter Routes.is_error rs)
   = length rs)%nat.
Proof.
  induction 1 as [|r rs Hr _ IH]; simpl; [reflexivity|].
  unfold Routes.is_success at 1, Routes.is_error at 1.
  destruct (Routes.r_status r); simpl; try lia. congruence.
Qed.

End RouteRuns.

(** X26.  The health route never throws.  With a required variable missing
    it answers "not_configured" with the list of missing names and does
    nothing else (no token exchange, no API call, no limiter entry).
    Otherwise it makes the one call to the sellers API and answers
    "healthy" exactly when that call succeeded, and its message is never
    empty. *)
Theorem health_route_report (P : Platform)
    (validateCredentials : gmap string string -> Validation)
    (getAccessToken : M string) (getSTSCredentials : M Credentials) (T : RateTable)
    (encodeURIComponent : string -> string) (spApiClient : Facade.SPAPIClient)
    (w : World) :
  let run := Routes.health_GET P validateCredentials getAccessToken getSTSCredentials T
               encodeURIComponent spApiClient w in
  let v := validateCredentials (env w) in
  let sellers := Routes.call P getAccessToken getSTSCredentials T encodeURIComponent
                   spApiClient Facade.getMarketplaceParticipations w in
  exists report,
    fst run = Returned report
    /\ Routes.h_message report <> ""
    /\ Routes.h_configured report = valid v
    /\ (valid v = false ->
        snd run = w
        /\ Routes.h_status report = "not_configured"
        /\ Routes.h_missing report = Some (missing v))
    /\ (valid v = true ->
        snd run = snd sellers
        /\ exists result, fst sellers = Returned result
             /\ (Routes.h_status report = "healthy" <-> success result = true)
             /\ (Routes.h_status report = "error" <-> success result = false)).
Proof.
  intros run v sellers. subst run v sellers. unfold Routes.health_GET. run_monad.
  destruct (valid (validateCredentials (env w))) eqn:Hv; simpl.
  - destruct (call_returns P getAccessToken getSTSCredentials T encodeURIComponent
                spApiClient Facade.getMarketplaceParticipations w) as (result & w' & Hcall).
    rewrite Hcall. simpl. destruct (success result) eqn:Hs; simpl;
      eexists; (split; [reflexivity|]); simpl.
    + split; [discriminate|]. split; [reflexivity|]. split; [discriminate|].
      intros _. split; [reflexivity|]. exists result. rewrite Hs.
      repeat split; try reflexivity; discriminate.
    + split; [apply js_or_default_nonempty; discriminate|].
      split; [reflexivity|]. split; [discriminate|].
      intros _. split; [reflexivity|]. exists result. rewrite Hs.
      repeat split; try reflexivity; discriminate.
  - eexists. split; [reflexivity|]. simpl. split; [discriminate|].
    split; [reflexivity|]. split; [intros _; repeat split | discriminate].
Qed.

(** X27.  The test-all route never throws.  With a required variable
    missing it reports the missing names and does nothing else.  Otherwise
    it reports eight results, one per test and in the order of the tests,
    none of them marked as skipped, so the success and error counts add up
    to the total, and the overall flag is set exactly when no test
    failed. *)
Theorem test_all_summary (P : Platform)
    (validateCredentials : gmap string string -> Validation)
    (getAccessToken : M string) (getSTSCredentials : M Credentials) (T : RateTable)
    (encodeURIComponent : string -> string) (spApiClient : Facade.SPAPIClient)
    (toISOString : Z -> string) (w : World) :
  let run := Routes.test_all_GET P validateCredentials getAccessToken getSTSCredentials T
               encodeURIComponent spApiClient toISOString w in
  let v := validateCredentials (env w) in
  (valid v = false ->
   run = (Returned (Routes.MissingCredentials (missing v)), w))
  /\ (valid v = true ->
      exists flag successes errors results stamp,
        fst run = Returned (Routes.Summary flag 8 successes errors results stamp)
        /\ (successes + errors = 8)%nat
        /\ (flag = true <-> successes = 8%nat)
        /\ List.map Routes.r_name results
           = [ "Sellers API"; "Orders API"; "FBA Inventory API"; "Catalog API";
               "Reports API"; "Finances API"; "Notifications API";
               "Fulfillment Inbound API" ]).
Proof.
  intros run v. subst v.
  destruct (valid (validateCredentials (env w))) eqn:Hv.
  - split; [discriminate|]. intros _.
    destruct (run_tests_returns P
                (Routes.tests P getAccessToken getSTSCredentials T encodeURIComponent
                   spApiClient toISOString) [] w) as (rs & w' & Hrun & Hn & _ & Hs).
    assert (length rs = 8%nat) as Hlen.
    { rewrite <- (length_map Routes.r_name), Hn. reflexivity. }
    pose proof (partition_counts rs Hs) as Hpart.
    exists (Nat.eqb (length (List.filter Routes.is_error rs)) 0),
      (length (List.filter Routes.is_success rs)),
      (length (List.filter Routes.is_error rs)), rs, (toISOString (clock w')).
    split.
    + subst run. unfold Routes.test_all_GET, bind, gets, Date_now, ret.
      rewrite Hv. cbn [negb]. rewrite Hrun. cbn [app fst]. rewrite Hlen. reflexivity.
    + split; [lia|]. split; [|exact Hn]. rewrite Nat.eqb_eq. lia.
  - split; [|discriminate]. intros _. subst run.
    unfold Routes.test_all_GET, bind, gets, ret. rewrite Hv. reflexivity.
Qed.

(** ** Further theorems at concrete inputs *)

Lemma caller_headers_override_witness :
  let P := Scenario.platform (Scenario.responds 200 "{}") in
  exists new,
    trace (snd (Scenario.execute P Samples.with_own_token Scenario.warm))
      = (trace (add_event EvGetSTSCredentials (add_event EvGetAccessToken Scenario.warm))
           ++ new)%list
    /\ forall ro c, In (EvSign ro c) new ->
         a_headers ro !! "x-amz-access-token" = Some "caller-token".
Proof.
  intros P.
  destruct (caller_headers_override P Client.RATE_LIMITS (Auth.getAccessToken P)
              Auth.getSTSCredentials Samples.with_own_token Scenario.warm _ _ _ _
              ltac:(vm_compute; reflexivity) ltac:(vm_compute; reflexivity))
    as (new & Htr & Hh).
  exists new. split; [exact Htr|].
  intros ro c Hin. apply (proj1 (Hh ro c Hin)). reflexivity.
Defined.

Lemma falsy_body_not_sent_witness :
  let P := Scenario.platform (Scenario.responds 200 "{}") in
  exists new,
    trace (snd (Scenario.execute P Samples.post_null Scenario.warm))
      = (trace (add_event EvGetSTSCredentials (add_event EvGetAccessToken Scenario.warm))
           ++ new)%list
    /\ (forall ro c, In (EvSign ro c) new -> a_body ro = None)
    /\ (forall req, In (EvFetch req) new -> f_body req = NoBody).
Proof.
  intros P.
  exact (falsy_body_not_sent P Client.RATE_LIMITS (Auth.getAccessToken P)
           Auth.getSTSCredentials Samples.post_null Scenario.warm _ _ _ _
           ltac:(vm_compute; reflexivity) ltac:(vm_compute; reflexivity) eq_refl).
Defined.

Lemma short_lived_token_never_reused_witness :
  let P := Samples.short_lived (Scenario.responds 200 "{}") in
  let w1 := elapse 0 (snd (Auth.getAccessToken P Scenario.stale)) in
  fst (Auth.getAccessToken P Scenario.stale) = Returned "Atza|brief"
  /\ trace (snd (Auth.getAccessToken P w1))
     = (trace w1 ++ [EvGetAccessToken; EvFetch (token_request (env w1))])%list.
Proof.
  intros P.
  exact (short_lived_token_never_reused P Scenario.stale
           {| status := 200; body_text := Returned "{}" |} "{}"
           {| access_token := "Atza|brief"; expires_in := 45 |} 0%N
           eq_refl eq_refl eq_refl eq_refl eq_refl ltac:(simpl; lia)).
Defined.

Lemma sts_contacted_only_with_role_witness :
  trace (snd (AuthRole.getSTSCredentials (Scenario.platform Scenario.network_down)
                Scenario.warm))
  = [EvGetSTSCredentials].
Proof.
  apply (proj1 (sts_contacted_only_with_role (Scenario.platform Scenario.network_down)
                  Scenario.warm)).
  left. reflexivity.
Defined.

Lemma health_route_report_witness :
  exists report,
    fst (Routes.health_GET (Scenario.platform (Scenario.responds 200 "{}"))
           Auth.validateCredentials
           (Auth.getAccessToken (Scenario.platform (Scenario.responds 200 "{}")))
           Auth.getSTSCredentials Client.RATE_LIMITS (fun s => s) Samples.client
           Scenario.warm) = Returned report
    /\ Routes.h_status report = "not_configured"
    /\ Routes.h_missing report = Some ["REFRESH_TOKEN"; "SELLER_ID"].
Proof.
  destruct (health_route_report (Scenario.platform (Scenario.responds 200 "{}"))
              Auth.validateCredentials
              (Auth.getAccessToken (Scenario.platform (Scenario.responds 200 "{}")))
              Auth.getSTSCredentials Client.RATE_LIMITS (fun s => s) Samples.client
              Scenario.warm) as (report & Hrun & _ & _ & Hbad & _).
  exists report. split; [exact Hrun|].
  destruct (Hbad eq_refl) as (_ & Hstatus & Hmissing).
  split; [exact Hstatus | exact Hmissing].
Defined.

Lemma test_all_summary_witness :
  Routes.test_all_GET (Scenario.platform (Scenario.responds 200 "{}"))
    Auth.validateCredentials
    (Auth.getAccessToken (Scenario.platform (Scenario.responds 200 "{}")))
    Auth.getSTSCredentials Client.RATE_LIMITS (fun s => s) Samples.client
    (fun t => pretty t) Scenario.warm
  = (Returned (Routes.MissingCredentials ["REFRESH_TOKEN"; "SELLER_ID"]), Scenario.warm).
Proof.
  exact (proj1 (test_all_summary (Scenario.platform (Scenario.responds 200 "{}"))
                  Auth.validateCredentials
                  (Auth.getAccessToken (Scenario.platform (Scenario.responds 200 "{}")))
                  Auth.getSTSCredentials Client.RATE_LIMITS (fun s => s) Samples.client
                  (fun t => pretty t) Scenario.warm) eq_refl).
Defined.

(** With every variable set the eight tests run; here all of them succeed. *)
Example test_all_runs_eight :
  match fst (Routes.test_all_GET (Scenario.platform (Scenario.responds 200 "{}"))
               AuthRole.validateCredentials
               (Auth.getAccessToken (Scenario.platform (Scenario.responds 200 "{}")))
               Auth.getSTSCredentials Client.RATE_LIMITS (fun s => s) Samples.client
               (fun t => pretty t) Samples.configured) with
  | Returned (Routes.Summary flag total successes errors _ _) =>
      (flag, total, successes, errors) = (true, 8, 8, 0)%nat
  | _ => False
  end.
Proof. vm_compute. reflexivity. Qed.
